(** * Easy Connection relay server: a shallow embedding and its properties

    The relay server keeps two JavaScript [Map]s, [waitingHosts] (code -> ws)
    and [sessions] (code -> {host, client}), and reacts to the events of the
    WebSocket server: [connection], [pong], [message], [close] and the
    periodic [pingInterval] sweep.

    The [ws] objects are shared and mutated in place (the registries hold
    references to them), so the model keeps them in a store indexed by a
    connection identifier; the registries hold identifiers, and the JavaScript
    identity test [waitingHosts.get(code) === ws] is equality of identifiers.

    The definitions follow the version of the server whose handlers are
    [registerHost], [connectToHost], [relayData] and [handleDisconnect];
    the functions of the two versions in [src/server.js] that the
    properties below also concern are in the module [ServerJs].

    Scope of the model.
    - A decoded message carries its [code] as a string or not at all; a
      [code] of another JSON type is outside the model.  The characters of a
      code stand for the code units counted by [code.length].
    - [ws.send], [ws.ping] and [ws.terminate] belong to the transport
      library.  A call of any of them is recorded in the chronological
      list [sent]; [terminate] also moves the ready state of a socket that
      is not yet closed to [CLOSING].
    - Logging ([console.log], [console.error]) has no effect on the state,
      except where a template literal interpolates a value that cannot be
      converted to a string: the conversion throws.  An exception thrown
      inside [handleMessage] is caught by the [message] listener, which
      logs it; the handlers below return the state reached when it is
      thrown.  So does the [close] listener, whose exception nothing
      catches; what becomes of the process then is outside the model. *)

From stdpp Require Import gmap strings list fin_maps.

Open Scope string_scope.
Open Scope list_scope.

(** ** Data model *)

(** Opaque JSON values: device identifiers, device names and relayed
    payloads are never inspected by the server. *)
#[warnings="-register-all"]
Inductive Json :=
  | JNull
  | JBool (b : bool)
  | JNum (n : Z)
  | JStr (s : string)
  | JArr (items : list Json)
  | JObj (fields : list (string * Json)).

(** Whether a template literal can interpolate a value.  Primitives are
    converted to a string.  An array is joined: its elements are converted
    in turn.  An object parsed from JSON is converted by the [toString] of
    [Object.prototype] unless it has a key [toString] of its own: the value
    under that key is not callable, [valueOf] returns the object itself,
    and the conversion throws a [TypeError]. *)
Fixpoint printable (v : Json) : bool :=
  match v with
  | JNull | JBool _ | JNum _ | JStr _ => true
  | JArr items => forallb printable items
  | JObj fields => negb (existsb (λ kv, String.eqb (fst kv) "toString") fields)
  end.

(** The same for a property that may be absent: [undefined] is printed. *)
Definition prints (o : option Json) : bool :=
  match o with
  | None => true
  | Some v => printable v
  end.

(** [ws.role] is [null], ['host'] or ['client']; [null] is [None]. *)
Inductive Role := host_role | client_role.

Global Instance Role_eq_dec : EqDecision Role.
Proof. solve_decision. Defined.

(** [ws.readyState] of the WebSocket library. *)
Inductive ReadyState := CONNECTING | OPEN | CLOSING | CLOSED.

Global Instance ReadyState_eq_dec : EqDecision ReadyState.
Proof. solve_decision. Defined.

(** Identity of a [ws] object. *)
Abbreviation ConnId := nat (only parsing).

(** The fields of a [ws] object the server reads or writes.  [null] and
    [undefined] are [None]. *)
Record Conn := mkConn {
  isAlive : bool;
  sessionCode : option string;
  role : option Role;
  deviceId : option Json;
  deviceName : option Json;
  readyState : ReadyState
}.

(** A value of the [sessions] map: [{ host: hostWs, client: ws }]. *)
Record Session := mkSession {
  host : ConnId;
  client : ConnId
}.

Global Instance Session_eq_dec : EqDecision Session.
Proof. solve_decision. Defined.

(** A decoded inbound message: the properties the handlers read.  An absent
    property is [None]; so is a [type] that is not a string, which matches
    no case of the dispatch. *)
Record Message := mkMessage {
  type : option string;
  code : option string;
  device_id : option Json;
  device_name : option Json;
  data : option Json
}.

(** What [JSON.parse(data.toString())] makes of an inbound frame. *)
Inductive Frame :=
  | Undecodable              (* JSON.parse throws *)
  | JsonNull                 (* parses to null: reading message.type throws *)
  | Decoded (m : Message).   (* any other value *)

(** The server-to-client frames, before [JSON.stringify]. *)
Inductive OutMsg :=
  | error (message : string)
  | registered (c : string)
  | connection_failed (reason : string)
  | peer_connected (peer_id peer_name : option Json)
  | connected_to_host (host_id host_name : option Json)
  | relayed (from : option Role) (payload : option Json)
  | peer_disconnected
  | pong.

(** Calls into the transport, in the order they are made. *)
Inductive Action :=
  | Send (to : ConnId) (m : OutMsg)
  | Ping (to : ConnId)
  | Terminate (ws : ConnId).

(** The whole server: [wss.clients] in insertion order, the store of [ws]
    objects, the two registries and the transport log. *)
Record State := mkState {
  clients : list ConnId;
  conns : gmap ConnId Conn;
  waitingHosts : gmap string ConnId;
  sessions : gmap string Session;
  sent : list Action
}.

Definition initial : State :=
  {| clients := []; conns := ∅; waitingHosts := ∅; sessions := ∅; sent := [] |}.

(** ** Field access through the store *)

Definition set_conns (f : gmap ConnId Conn → gmap ConnId Conn) (st : State) : State :=
  {| clients := clients st; conns := f (conns st);
     waitingHosts := waitingHosts st; sessions := sessions st; sent := sent st |}.

Definition set_waitingHosts (f : gmap string ConnId → gmap string ConnId) (st : State) : State :=
  {| clients := clients st; conns := conns st;
     waitingHosts := f (waitingHosts st); sessions := sessions st; sent := sent st |}.

Definition set_sessions (f : gmap string Session → gmap string Session) (st : State) : State :=
  {| clients := clients st; conns := conns st;
     waitingHosts := waitingHosts st; sessions := f (sessions st); sent := sent st |}.

Definition set_clients (f : list ConnId → list ConnId) (st : State) : State :=
  {| clients := f (clients st); conns := conns st;
     waitingHosts := waitingHosts st; sessions := sessions st; sent := sent st |}.

(** [ws.sessionCode], [ws.role], [ws.deviceId], [ws.deviceName]. *)
Definition sessionCode_of (st : State) (w : ConnId) : option string :=
  conns st !! w ≫= sessionCode.

Definition role_of (st : State) (w : ConnId) : option Role :=
  conns st !! w ≫= role.

Definition deviceId_of (st : State) (w : ConnId) : option Json :=
  conns st !! w ≫= deviceId.

Definition deviceName_of (st : State) (w : ConnId) : option Json :=
  conns st !! w ≫= deviceName.

(** [ws.readyState === WebSocket.OPEN]. *)
Definition is_open (st : State) (w : ConnId) : bool :=
  match conns st !! w with
  | Some c => bool_decide (readyState c = OPEN)
  | None => false
  end.

(** [ws.isAlive] as a condition. *)
Definition alive (st : State) (w : ConnId) : bool :=
  match conns st !! w with
  | Some c => isAlive c
  | None => false
  end.

(** [ws.send(JSON.stringify(m))]. *)
Definition send (w : ConnId) (m : OutMsg) (st : State) : State :=
  {| clients := clients st; conns := conns st;
     waitingHosts := waitingHosts st; sessions := sessions st;
     sent := sent st ++ [Send w m] |}.

(** [ws.ping()]. *)
Definition ping (w : ConnId) (st : State) : State :=
  {| clients := clients st; conns := conns st;
     waitingHosts := waitingHosts st; sessions := sessions st;
     sent := sent st ++ [Ping w] |}.

(** The four assignments [ws.sessionCode = code; ws.role = r;
    ws.deviceId = device_id; ws.deviceName = device_name]. *)
Definition bind_conn (c : string) (r : Role) (m : Message) (x : Conn) : Conn :=
  {| isAlive := isAlive x; sessionCode := Some c; role := Some r;
     deviceId := device_id m; deviceName := device_name m;
     readyState := readyState x |}.

Definition set_isAlive (b : bool) (x : Conn) : Conn :=
  {| isAlive := b; sessionCode := sessionCode x; role := role x;
     deviceId := deviceId x; deviceName := deviceName x;
     readyState := readyState x |}.

Definition set_readyState (r : ReadyState) (x : Conn) : Conn :=
  {| isAlive := isAlive x; sessionCode := sessionCode x; role := role x;
     deviceId := deviceId x; deviceName := deviceName x;
     readyState := r |}.

(** ** The handlers of the relay server *)

(** The validity test of [registerHost], [!code || code.length !== 9], on
    a [code] that is a string. *)
Definition invalid_code (c : string) : bool :=
  bool_decide (c = "") || negb (Nat.eqb (String.length c) 9).

(** [registerHost(ws, message)], part_000 lines 96-125.  Its first
    statement (line 99) logs [device_name] and [device_id] in a template
    literal, before the validity test: if either cannot be printed the
    function throws there.  The later logs print values that have been
    printed by then, or codes. *)
Definition registerHost (st : State) (ws : ConnId) (message : Message) : State :=
  if negb (prints (device_name message) && prints (device_id message)) then st
  else
    match code message with
    | None => send ws (error "Código inválido") st
    | Some c =>
        if invalid_code c then
          send ws (error "Código inválido") st
        else if bool_decide (is_Some (waitingHosts st !! c)) then
          send ws (error "Código en uso") st
        else
          let st1 := set_conns (alter (bind_conn c host_role message) ws) st in
          let st2 := set_waitingHosts (insert c ws) st1 in
          send ws (registered c) st2
    end.

(** The reason given in the [connection_failed] reply of [connectToHost]. *)
Definition host_not_found : string :=
  "No se encontró ningún PC con ese código. Verifica que el código sea correcto y que el otro PC tenga el acceso activado.".

(** [waitingHosts.get(code)]; no entry is stored under [undefined]. *)
Definition waiting_host (st : State) (c : option string) : option ConnId :=
  c ≫= (waitingHosts st !!.).

(** [connectToHost(ws, message)], part_000 lines 127-163.  The host's
    [deviceId] and [deviceName] are read after the sender's fields are set:
    host and sender may be the same object.  Line 149, between the updates
    of the registries and the two notifications, logs [device_name] and the
    host's [deviceName] in a template literal: if either cannot be printed
    the function throws there, the updates made and nothing sent. *)
Definition connectToHost (st : State) (ws : ConnId) (message : Message) : State :=
  match code message, waiting_host st (code message) with
  | Some c, Some hostWs =>
      if negb (is_open st hostWs) then
        send ws (connection_failed host_not_found) st
      else
        let st1 := set_conns (alter (bind_conn c client_role message) ws) st in
        let st2 := set_sessions (insert c {| host := hostWs; client := ws |}) st1 in
        let st3 := set_waitingHosts (delete c) st2 in
        if negb (prints (device_name message) && prints (deviceName_of st3 hostWs))
        then st3
        else
          let st4 := send hostWs
                       (peer_connected (device_id message) (device_name message)) st3 in
          send ws (connected_to_host (deviceId_of st4 hostWs) (deviceName_of st4 hostWs)) st4
  | _, _ => send ws (connection_failed host_not_found) st
  end.

(** [ws.role === 'host' ? session.client : session.host]. *)
Definition other_side (st : State) (ws : ConnId) (s : Session) : ConnId :=
  if bool_decide (role_of st ws = Some host_role) then client s else host s.

(** [relayData(ws, message)], part_000 lines 165-178. *)
Definition relayData (st : State) (ws : ConnId) (message : Message) : State :=
  match sessionCode_of st ws ≫= (sessions st !!.) with
  | None => st
  | Some session =>
      let target := other_side st ws session in
      if is_open st target then
        send target (relayed (role_of st ws) (data message)) st
      else st
  end.

(** [handleMessage(ws, message)], part_000 lines 77-94: a [switch] without
    a default case. *)
Definition handleMessage (st : State) (ws : ConnId) (message : Message) : State :=
  match type message with
  | Some "register_host" => registerHost st ws message
  | Some "connect_to_host" => connectToHost st ws message
  | Some "relay" => relayData st ws message
  | Some "ping" => send ws pong st
  | _ => st
  end.

(** [ws.on('message')]: a frame that does not parse, or whose handling
    throws, is caught and logged. *)
Definition on_message (st : State) (ws : ConnId) (f : Frame) : State :=
  match f with
  | Undecodable => st
  | JsonNull => st
  | Decoded message => handleMessage st ws message
  end.

(** [handleDisconnect(ws)], part_000 lines 180-200.  [!ws.sessionCode]
    holds for [null] and for the empty string. *)
Definition handleDisconnect (st : State) (ws : ConnId) : State :=
  match sessionCode_of st ws with
  | None => st
  | Some c =>
      if bool_decide (c = "") then st
      else if bool_decide (waitingHosts st !! c = Some ws) then
        set_waitingHosts (delete c) st
      else
        match sessions st !! c with
        | None => st
        | Some session =>
            let other := other_side st ws session in
            let st1 := if is_open st other then send other peer_disconnected st else st in
            set_sessions (delete c) st1
        end
  end.

(** A socket that is not closed yet starts closing. *)
Definition closing (x : Conn) : Conn :=
  if bool_decide (readyState x = CLOSED) then x else set_readyState CLOSING x.

(** [ws.terminate()]. *)
Definition terminate (ws : ConnId) (st : State) : State :=
  {| clients := clients st; conns := alter closing ws (conns st);
     waitingHosts := waitingHosts st; sessions := sessions st;
     sent := sent st ++ [Terminate ws] |}.

(** The body of the [forEach] of [pingInterval]. *)
Definition sweep_one (st : State) (ws : ConnId) : State :=
  if negb (alive st ws) then
    terminate ws (handleDisconnect st ws)
  else
    ping ws (set_conns (alter (set_isAlive false) ws) st).

(** One run of the callback of [pingInterval], part_000 lines 203-212. *)
Definition pingInterval (st : State) : State :=
  foldl sweep_one st (clients st).

(** ** The other versions of the server

    [src/server.js] holds two other versions of the same server: one with an
    inline [message] listener, and a modular one.  Their functions that
    differ from the ones above only in the text of a reply, or in where the
    teardown is run, are embedded here. *)
Module ServerJs.

(** [handleRegisterHost] of the modular version, server.js lines 180-214.
    Its only log of a message field (line 208) prints [device_name] between
    [waitingHosts.set] and the reply: if it cannot be printed the function
    throws there, the host stored and no reply sent. *)
Definition handleRegisterHost (st : State) (ws : ConnId) (message : Message) : State :=
  match code message with
  | None => send ws (error "Código inválido") st
  | Some c =>
      if invalid_code c then
        send ws (error "Código inválido") st
      else if bool_decide (is_Some (waitingHosts st !! c)) then
        send ws (error "Código ya en uso") st
      else
        let st1 := set_conns (alter (bind_conn c host_role message) ws) st in
        let st2 := set_waitingHosts (insert c ws) st1 in
        if negb (prints (device_name message)) then st2
        else send ws (registered c) st2
  end.

(** [handleRelay] of the modular version, server.js lines 269-286. *)
Definition handleRelay (st : State) (ws : ConnId) (message : Message) : State :=
  match sessionCode_of st ws ≫= (sessions st !!.) with
  | None => st
  | Some session =>
      let target := other_side st ws session in
      if is_open st target then
        send target (relayed (role_of st ws) (data message)) st
      else st
  end.

(** The [connect_to_host] branch of the inline [message] listener,
    server.js lines 56-71; line 69 logs as line 149 of the main version. *)
Definition connect_to_host_branch (st : State) (ws : ConnId) (msg : Message) : State :=
  match code msg, waiting_host st (code msg) with
  | Some c, Some hostWs =>
      if negb (is_open st hostWs) then
        send ws (connection_failed "No se encontró PC con ese código") st
      else
        let st1 := set_conns (alter (bind_conn c client_role msg) ws) st in
        let st2 := set_sessions (insert c {| host := hostWs; client := ws |}) st1 in
        let st3 := set_waitingHosts (delete c) st2 in
        if negb (prints (device_name msg) && prints (deviceName_of st3 hostWs))
        then st3
        else
          let st4 := send hostWs
                       (peer_connected (device_id msg) (device_name msg)) st3 in
          send ws (connected_to_host (deviceId_of st4 hostWs) (deviceName_of st4 hostWs)) st4
  | _, _ => send ws (connection_failed "No se encontró PC con ese código") st
  end.

(** The sweep of the inline version, server.js lines 95-101: a dead
    connection is terminated and its teardown is left to the [close]
    listener. *)
Definition sweep_one (st : State) (ws : ConnId) : State :=
  if negb (alive st ws) then terminate ws st
  else ping ws (set_conns (alter (set_isAlive false) ws) st).

Definition sweep (st : State) : State :=
  foldl sweep_one st (clients st).

End ServerJs.

(** ** The events of the server *)

(** [wss.on('connection')]: a new [ws] object, distinct from all others,
    joins [wss.clients] with [isAlive = true], [sessionCode = null] and
    [role = null]; its socket is open. *)
Definition new_conn : Conn :=
  {| isAlive := true; sessionCode := None; role := None;
     deviceId := None; deviceName := None; readyState := OPEN |}.

Definition on_connection (st : State) : State :=
  let ws := fresh (dom (conns st)) in
  set_clients (λ l, l ++ [ws]) (set_conns (insert ws new_conn) st).

(** [ws.on('pong')], part_000 lines 51-54: the flag is set before the
    listener logs. *)
Definition on_pong (st : State) (ws : ConnId) : State :=
  set_conns (alter (set_isAlive true) ws) st.

(** The transport starts closing a socket (a close frame arrived or the
    connection failed); the [close] event has not been emitted yet. *)
Definition on_closing (st : State) (ws : ConnId) : State :=
  set_conns (alter closing ws) st.

(** What the library does before it emits [close]: the ready state is
    [CLOSED] and the socket has left [wss.clients]. *)
Definition closed (st : State) (ws : ConnId) : State :=
  set_clients (filter (λ x, x ≠ ws))
    (set_conns (alter (set_readyState CLOSED) ws) st).

(** [ws.on('close')], part_000 lines 66-70.  The listener first logs
    [ws.deviceName || 'unknown'] in a template literal (line 67) and then
    runs [handleDisconnect]: if the name cannot be printed the listener
    throws and the teardown does not run. *)
Definition on_close (st : State) (ws : ConnId) : State :=
  if negb (prints (deviceName_of (closed st ws) ws)) then closed st ws
  else handleDisconnect (closed st ws) ws.

(** What the server reacts to: the listeners of [wss] and [ws], the
    transport closing a socket, and the timer of [pingInterval]. *)
Inductive Event :=
  | Connection
  | Pong (ws : ConnId)
  | Incoming (ws : ConnId) (f : Frame)
  | Closing (ws : ConnId)
  | Close (ws : ConnId)
  | Tick.

(** One event.  Events are emitted on existing [ws] objects only. *)
Definition step (st : State) (ev : Event) : State :=
  match ev with
  | Connection => on_connection st
  | Pong ws => on_pong st ws
  | Incoming ws f =>
      if bool_decide (is_Some (conns st !! ws)) then on_message st ws f else st
  | Closing ws => on_closing st ws
  | Close ws => on_close st ws
  | Tick => pingInterval st
  end.

Definition run (st : State) (evs : list Event) : State :=
  foldl step st evs.

Definition reachable (st : State) : Prop :=
  ∃ evs, st = run initial evs.

(** Messages as the endpoints build them. *)
Definition register_host (c : string) (id name : option Json) : Frame :=
  Decoded {| type := Some "register_host"; code := Some c;
             device_id := id; device_name := name; data := None |}.

Definition connect_to_host (c : string) (id name : option Json) : Frame :=
  Decoded {| type := Some "connect_to_host"; code := Some c;
             device_id := id; device_name := name; data := None |}.

Definition relay (payload : option Json) : Frame :=
  Decoded {| type := Some "relay"; code := None;
             device_id := None; device_name := None; data := payload |}.

(** ** Codes and messages used in the examples *)

Definition ABC123XYZ : string := "ABC123XYZ".
Definition QRS456TUV : string := "QRS456TUV".

Definition alice : option Json := Some (JStr "alice").
Definition bob : option Json := Some (JStr "bob").
Definition carol : option Json := Some (JStr "carol").
Definition dave : option Json := Some (JStr "dave").

Definition payload_x1 : option Json := Some (JObj [("x", JNum 1)]).

(** ** Properties of states *)

(** No code is a key of both registries. *)
Definition mutex (st : State) : Prop :=
  ∀ c, waitingHosts st !! c = None ∨ sessions st !! c = None.

(** Every registry entry of [st'] is an entry of [st]. *)
Definition no_new_entries (st st' : State) : Prop :=
  waitingHosts st' ⊆ waitingHosts st ∧ sessions st' ⊆ sessions st.

(** A host registers, a client pairs with it, and a third connection
    registers the same code while the session is active. *)
Definition reuse_while_paired : list Event :=
  [ Connection; Connection; Connection;
    Incoming 0 (register_host ABC123XYZ alice alice);
    Incoming 1 (connect_to_host ABC123XYZ bob bob);
    Incoming 2 (register_host ABC123XYZ carol carol) ].

(** A host registers and a client pairs with it. *)
Definition pairing : list Event :=
  [ Connection; Connection;
    Incoming 0 (register_host ABC123XYZ alice alice);
    Incoming 1 (connect_to_host ABC123XYZ bob bob) ].

(** After the pairing the client's socket starts closing; its [close]
    event has not been emitted yet. *)
Definition pairing_then_client_closing : list Event :=
  pairing ++ [ Closing 1 ].

(** The four type tags [handleMessage] dispatches on. *)
Definition known_type (t : option string) : Prop :=
  t = Some "register_host" ∨ t = Some "connect_to_host" ∨
  t = Some "relay" ∨ t = Some "ping".

(** One connection, and a registration under a three-character code. *)
Definition one_connection : list Event := [ Connection ].

Definition register_ABC : Frame := register_host "ABC" alice alice.

(** A host registers. *)
Definition registered_host : list Event :=
  [ Connection; Incoming 0 (register_host ABC123XYZ alice alice) ].

(** Two hosts register under different codes. *)
Definition host_turns_client : list Event :=
  [ Connection; Connection;
    Incoming 0 (register_host ABC123XYZ alice alice);
    Incoming 1 (register_host QRS456TUV bob bob) ].

(** A session under [ABC123XYZ] ends when its host closes; the client stays
    connected.  Two other connections then pair under the same code. *)
Definition code_reused_by_others : list Event :=
  [ Connection; Connection; Connection; Connection;
    Incoming 0 (register_host ABC123XYZ alice alice);
    Incoming 1 (connect_to_host ABC123XYZ bob bob);
    Close 0;
    Incoming 2 (register_host ABC123XYZ carol carol);
    Incoming 3 (connect_to_host ABC123XYZ dave dave) ].

(** A paired host registers its own code again. *)
Definition host_registers_again : list Event :=
  pairing ++ [ Incoming 0 (register_host ABC123XYZ alice alice) ].

(** The fields set by a registration or a pairing are the same in [st']
    as in [st], for every connection. *)
Definition same_binding (st st' : State) : Prop :=
  ∀ ws, role_of st' ws = role_of st ws ∧
        sessionCode_of st' ws = sessionCode_of st ws.

(** ** The liveness sweep *)

(** What one run of [pingInterval] adds to the transport log. *)
Definition sweep_log (st : State) : list Action :=
  drop (length (sent st)) (sent (pingInterval st)).

(** What [pingInterval] does to the [ws] object it visits. *)
Definition swept (x : Conn) : Conn :=
  if isAlive x then set_isAlive false x else closing x.

(** [wss.clients] is a set of existing [ws] objects. *)
Definition clients_wf (st : State) : Prop :=
  NoDup (clients st) ∧ ∀ w, w ∈ clients st → is_Some (conns st !! w).







(** ** The health check *)

(** The body of an HTTP response: the status report
    [{status, service, hosts, sessions}], before [JSON.stringify], or plain
    text. *)
Inductive Body :=
  | status_report (status service : string) (hosts sessions : nat)
  | text (s : string).

Record Response := mkResponse {
  statusCode : nat;
  contentType : option string;
  body : Body
}.

(** The request listener of [http.createServer], part_000 lines 20-35:
    [/] and [/health] report the sizes of the two registries, any other URL
    is answered 404. *)
Definition http_request (st : State) (url : string) : Response :=
  if bool_decide (url = "/") || bool_decide (url = "/health") then
    {| statusCode := 200; contentType := Some "application/json";
       body := status_report "ok" "Easy Connection Relay"
                 (size (waitingHosts st)) (size (sessions st)) |}
  else
    {| statusCode := 404; contentType := None; body := text "Not Found" |}.

(** ** The inline version: the [close] listener *)

Module Inline.

(** [ws.on('close')] of the inline version, server.js lines 78-92.  Unlike
    [handleDisconnect] it does not return after deleting the waiting entry. *)
Definition close_listener (st : State) (ws : ConnId) : State :=
  match sessionCode_of st ws with
  | None => st
  | Some c =>
      if bool_decide (c = "") then st
      else
        let st1 := if bool_decide (waitingHosts st !! c = Some ws)
                   then set_waitingHosts (delete c) st else st in
        match sessions st1 !! c with
        | None => st1
        | Some session =>
            let other := other_side st1 ws session in
            let st2 := if is_open st1 other
                       then send other peer_disconnected st1 else st1 in
            set_sessions (delete c) st2
        end
  end.

End Inline.

(** ** The modular version as a whole *)

Module Modular.

(** The reason given in the [connection_failed] reply of
    [handleConnectToHost]. *)
Definition host_not_found : string :=
  "No se encontró ningún PC con ese código. Verifica que:
1. El código sea correcto
2. El otro PC tenga el acceso activado".

(** [handleConnectToHost], server.js lines 216-267: as [connectToHost],
    behind a test [!code]; line 252 logs as line 149 of the main version. *)
Definition handleConnectToHost (st : State) (ws : ConnId) (message : Message) : State :=
  match code message with
  | None => send ws (error "Código requerido") st
  | Some c =>
      if bool_decide (c = "") then send ws (error "Código requerido") st
      else
        match waitingHosts st !! c with
        | None => send ws (connection_failed host_not_found) st
        | Some hostWs =>
            if negb (is_open st hostWs) then
              send ws (connection_failed host_not_found) st
            else
              let st1 := set_conns (alter (bind_conn c client_role message) ws) st in
              let st2 := set_sessions (insert c {| host := hostWs; client := ws |}) st1 in
              let st3 := set_waitingHosts (delete c) st2 in
              if negb (prints (device_name message) && prints (deviceName_of st3 hostWs))
              then st3
              else
                let st4 := send hostWs
                             (peer_connected (device_id message) (device_name message)) st3 in
                send ws (connected_to_host (deviceId_of st4 hostWs) (deviceName_of st4 hostWs)) st4
        end
  end.

(** [handleMessage], server.js lines 155-178; the default case only logs. *)
Definition handleMessage (st : State) (ws : ConnId) (message : Message) : State :=
  match type message with
  | Some "register_host" => ServerJs.handleRegisterHost st ws message
  | Some "connect_to_host" => handleConnectToHost st ws message
  | Some "relay" => ServerJs.handleRelay st ws message
  | Some "ping" => send ws pong st
  | _ => st
  end.

(** [ws.on('message')], server.js lines 136-143. *)
Definition on_message (st : State) (ws : ConnId) (f : Frame) : State :=
  match f with
  | Undecodable => st
  | JsonNull => st
  | Decoded message => handleMessage st ws message
  end.

(** [ws.on('close')], server.js lines 145-148: the listener logs a fixed
    text and runs [handleDisconnect]. *)
Definition on_close (st : State) (ws : ConnId) : State :=
  handleDisconnect (closed st ws) ws.

(** One event of the modular version.  Its [connection] and [pong]
    listeners, its [handleDisconnect] (lines 288-314) and its sweep (lines
    317-328) read as the ones of the main version. *)
Definition step (st : State) (ev : Event) : State :=
  match ev with
  | Connection => on_connection st
  | Pong ws => on_pong st ws
  | Incoming ws f =>
      if bool_decide (is_Some (conns st !! ws)) then on_message st ws f else st
  | Closing ws => on_closing st ws
  | Close ws => on_close st ws
  | Tick => pingInterval st
  end.

Definition run (st : State) (evs : list Event) : State :=
  foldl step st evs.

End Modular.

(** ** Comparing two runs *)

(** The replies that turn a request down. *)
Definition rejection (m : OutMsg) : bool :=
  match m with
  | error _ | connection_failed _ => true
  | _ => false
  end.

(** Two transport calls are alike if they are equal, or send rejections to
    the same connection. *)
Definition alike (a b : Action) : Prop :=
  a = b ∨
  ∃ w m1 m2, a = Send w m1 ∧ b = Send w m2 ∧
             rejection m1 = true ∧ rejection m2 = true.

(** Two states are alike if they differ at most in the wording of the
    rejections in their transport logs. *)
Definition similar (st st' : State) : Prop :=
  clients st' = clients st ∧ conns st' = conns st ∧
  waitingHosts st' = waitingHosts st ∧ sessions st' = sessions st ∧
  Forall2 alike (sent st) (sent st').

(** ** Invariants of the reachable states *)

(** Every code held by a registry or by a connection has nine characters. *)
Definition valid_codes (st : State) : Prop :=
  (∀ c w, waitingHosts st !! c = Some w → String.length c = 9) ∧
  (∀ c s, sessions st !! c = Some s → String.length c = 9) ∧
  (∀ w c, sessionCode_of st w = Some c → String.length c = 9).

(** A connection that has gone through a registration or a pairing. *)
Definition bound (st : State) (w : ConnId) : Prop :=
  is_Some (sessionCode_of st w) ∧ is_Some (role_of st w).

(** The registries hold bound connections only. *)
Definition members_bound (st : State) : Prop :=
  (∀ c w, waitingHosts st !! c = Some w → bound st w) ∧
  (∀ c s, sessions st !! c = Some s → bound st (host s) ∧ bound st (client s)).

(** ** More traces *)

(** A message with the given type tag and code. *)
Definition message_of (t c : string) (who : option Json) : Message :=
  {| type := Some t; code := Some c; device_id := who; device_name := who;
     data := None |}.

(** Two connections, the first of which is a waiting host. *)
Definition host_and_guest : list Event :=
  [ Connection; Connection;
    Incoming 0 (register_host ABC123XYZ alice alice) ].

(** Two connections that have sent nothing yet. *)
Definition two_connections : list Event := [ Connection; Connection ].

(** A connection that never answers is swept once. *)
Definition swept_once : list Event := [ Connection; Tick ].

(** A paired client stops answering and is swept once. *)
Definition pairing_swept_once : list Event := pairing ++ [ Pong 0; Tick; Pong 0 ].

(** ** Printable names *)

(** A value that no template literal can print. *)
Definition unprintable_name : option Json := Some (JObj [("toString", JNum 1)]).

(** The device id and name of a frame can be printed. *)
Definition printable_frame (f : Frame) : bool :=
  match f with
  | Decoded m => prints (device_name m) && prints (device_id m)
  | _ => true
  end.

Definition printable_event (ev : Event) : bool :=
  match ev with
  | Incoming _ f => printable_frame f
  | _ => true
  end.

(** Every stored device name can be printed. *)
Definition names_print (st : State) : Prop :=
  ∀ w, prints (deviceName_of st w) = true.

(** A connection with the role host carries a printable name and id: it was
    last bound by [registerHost]. *)
Definition host_names_print (st : State) : Prop :=
  ∀ w, role_of st w = Some host_role →
       prints (deviceName_of st w) = true ∧ prints (deviceId_of st w) = true.

(** A client pairs under a name that cannot be printed. *)
Definition connect_unprintable : Frame :=
  Decoded {| type := Some "connect_to_host"; code := Some ABC123XYZ;
             device_id := bob; device_name := unprintable_name; data := None |}.

(** ** Basic facts about the handlers *)

(** A lookup at [i] in a store altered at [w]: the case [i = w] is left to
    the caller, the other one is closed. *)
Ltac alter_at i w :=
  destruct (decide (i = w)) as [->|];
  [ rewrite ?lookup_alter_eq | by rewrite ?lookup_alter_ne ].

(** [relayData] and [handleDisconnect] never touch a [ws] object. *)
Lemma relayData_conns st ws m : conns (relayData st ws m) = conns st.
Proof.
  unfold relayData. destruct (sessionCode_of st ws ≫= _); [|done].
  by destruct (is_open st _).
Qed.

Lemma handleDisconnect_conns st ws : conns (handleDisconnect st ws) = conns st.
Proof.
  unfold handleDisconnect. destruct (sessionCode_of st ws); [|done].
  repeat case_bool_decide; try done.
  destruct (sessions st !! _); [|done]. by destruct (is_open st _).
Qed.

Lemma handleDisconnect_clients st ws : clients (handleDisconnect st ws) = clients st.
Proof.
  unfold handleDisconnect. destruct (sessionCode_of st ws); [|done].
  repeat case_bool_decide; try done.
  destruct (sessions st !! _); [|done]. by destruct (is_open st _).
Qed.

(** The [close] listener marks the socket closed and drops it from
    [wss.clients], whether its teardown runs or not. *)
Lemma on_close_conns st ws :
  conns (on_close st ws) = alter (set_readyState CLOSED) ws (conns st).
Proof.
  unfold on_close. destruct (negb _); [done|]. by rewrite handleDisconnect_conns.
Qed.

Lemma on_close_clients st ws :
  clients (on_close st ws) = filter (λ x, x ≠ ws) (clients st).
Proof.
  unfold on_close. destruct (negb _); [done|]. by rewrite handleDisconnect_clients.
Qed.

(** ** Dispatch on the type tag *)

Lemma handleMessage_unknown st ws m :
  ¬ known_type (type m) → handleMessage st ws m = st.
Proof.
  unfold known_type, handleMessage. intros H.
  destruct (type m) as [t|]; [|done].
  repeat (destruct t as [|[[] [] [] [] [] [] [] []] t]; try done);
    exfalso; apply H; auto.
Qed.

Lemma handleMessage_cases st ws m :
  (type m = Some "register_host" ∧ handleMessage st ws m = registerHost st ws m) ∨
  (type m = Some "connect_to_host" ∧ handleMessage st ws m = connectToHost st ws m) ∨
  (type m = Some "relay" ∧ handleMessage st ws m = relayData st ws m) ∨
  (type m = Some "ping" ∧ handleMessage st ws m = send ws pong st) ∨
  (¬ known_type (type m) ∧ handleMessage st ws m = st).
Proof.
  destruct (decide (type m = Some "register_host")) as [E|N1].
  { left. split; [done|]. unfold handleMessage. by rewrite E. }
  destruct (decide (type m = Some "connect_to_host")) as [E|N2].
  { right; left. split; [done|]. unfold handleMessage. by rewrite E. }
  destruct (decide (type m = Some "relay")) as [E|N3].
  { right; right; left. split; [done|]. unfold handleMessage. by rewrite E. }
  destruct (decide (type m = Some "ping")) as [E|N4].
  { right; right; right; left. split; [done|]. unfold handleMessage. by rewrite E. }
  right; right; right; right.
  assert (¬ known_type (type m)) by (unfold known_type; tauto).
  split; [done|]. by apply handleMessage_unknown.
Qed.

(** ** The validity test *)

Lemma bind_alter_insert c r m ws x (cs : gmap nat Conn) :
  cs !! ws = Some x →
  alter (bind_conn c r m) ws cs = <[ws := bind_conn c r m x]> cs.
Proof.
  intros Hx. apply map_eq. intros i. destruct (decide (i = ws)) as [->|].
  - rewrite lookup_alter_eq, lookup_insert_eq. by rewrite Hx.
  - by rewrite lookup_alter_ne, lookup_insert_ne.
Qed.

Lemma invalid_code_false c : invalid_code c = false ↔ String.length c = 9.
Proof.
  unfold invalid_code. split.
  - intros [_ H]%orb_false_elim. apply negb_false_iff in H.
    by apply Nat.eqb_eq in H.
  - intros H. apply orb_false_intro.
    + apply bool_decide_eq_false_2. intros ->. discriminate H.
    + apply negb_false_iff. by apply Nat.eqb_eq.
Qed.

Lemma invalid_code_true c : invalid_code c = true ↔ String.length c ≠ 9.
Proof.
  rewrite <- invalid_code_false. destruct (invalid_code c); split; congruence.
Qed.

(** ** The two registries *)

Lemma no_new_entries_refl st : no_new_entries st st.
Proof. by split. Qed.

Lemma no_new_entries_trans st1 st2 st3 :
  no_new_entries st1 st2 → no_new_entries st2 st3 → no_new_entries st1 st3.
Proof. intros [H1 H2] [H3 H4]. split; by etrans. Qed.

Lemma no_new_entries_mutex st st' :
  no_new_entries st st' → mutex st → mutex st'.
Proof.
  intros [H1 H2] M c. destruct (M c) as [E|E]; [left|right];
    eapply lookup_weaken_None; eauto.
Qed.

Lemma handleDisconnect_no_new st ws : no_new_entries st (handleDisconnect st ws).
Proof.
  unfold handleDisconnect. destruct (sessionCode_of st ws) as [c|]; [|by split].
  repeat case_bool_decide; try by split.
  - split; simpl; [apply delete_subseteq | done].
  - destruct (sessions st !! c) as [s|]; [|by split].
    split; simpl.
    + by destruct (is_open st _).
    + etrans; [apply delete_subseteq|]. by destruct (is_open st _).
Qed.

Lemma relayData_registries st ws m :
  waitingHosts (relayData st ws m) = waitingHosts st ∧
  sessions (relayData st ws m) = sessions st.
Proof.
  unfold relayData. destruct (sessionCode_of st ws ≫= _); [|done].
  by destruct (is_open st _).
Qed.

Lemma sweep_one_no_new st ws : no_new_entries st (sweep_one st ws).
Proof.
  unfold sweep_one. destruct (negb (alive st ws)); [|by split].
  destruct (handleDisconnect_no_new st ws). by split.
Qed.

Lemma sweep_no_new l st : no_new_entries st (foldl sweep_one st l).
Proof.
  revert st. induction l as [|w l IH]; intros st; simpl.
  - apply no_new_entries_refl.
  - eapply no_new_entries_trans; [apply sweep_one_no_new | apply IH].
Qed.

Lemma pingInterval_no_new st : no_new_entries st (pingInterval st).
Proof. apply sweep_no_new. Qed.

Lemma on_close_no_new st ws : no_new_entries st (on_close st ws).
Proof.
  unfold on_close. destruct (negb _); [by split|].
  eapply no_new_entries_trans; [|apply handleDisconnect_no_new]. by split.
Qed.

(** Pairing moves the code from one registry to the other. *)
Lemma connectToHost_mutex st ws m : mutex st → mutex (connectToHost st ws m).
Proof.
  intros M. unfold connectToHost.
  destruct (code m) as [c|]; [|exact M].
  destruct (waiting_host st (Some c)) as [h|]; [|exact M].
  destruct (negb (is_open st h)); [exact M|].
  assert (mutex (set_waitingHosts (delete c)
            (set_sessions (insert c {| host := h; client := ws |})
               (set_conns (alter (bind_conn c client_role m) ws) st)))) as M'.
  { intros c'. simpl. destruct (decide (c = c')) as [->|Hne].
    - left. by simplify_map_eq.
    - rewrite lookup_delete_ne, lookup_insert_ne by done. apply M. }
  by destruct (negb _).
Qed.

(** Registration keeps the registries apart as long as the code has no
    session; [registerHost] itself only looks at [waitingHosts]. *)
Lemma registerHost_mutex st ws m :
  (∀ c, code m = Some c → sessions st !! c = None) →
  mutex st → mutex (registerHost st ws m).
Proof.
  intros Hfree M. unfold registerHost.
  destruct (negb _); [exact M|].
  destruct (code m) as [c|]; [|exact M].
  destruct (invalid_code c); [exact M|].
  case_bool_decide; [exact M|].
  intros c'. simpl. destruct (decide (c = c')) as [->|Hne].
  - right. by apply Hfree.
  - rewrite lookup_insert_ne by done. apply M.
Qed.

(** Every event other than a [register_host] message keeps the registries
    apart. *)
Lemma step_mutex st ev :
  (∀ ws m, ev = Incoming ws (Decoded m) → type m ≠ Some "register_host") →
  mutex st → mutex (step st ev).
Proof.
  intros Hev M. destruct ev as [|ws|ws f|ws|ws|]; simpl; try done.
  - case_bool_decide; [|done]. destruct f as [| |m]; try done.
    simpl. specialize (Hev ws m eq_refl).
    destruct (handleMessage_cases st ws m) as [[Ht _]|[[_ ->]|[[_ ->]|[[_ ->]|[_ ->]]]]];
      try done.
    + by apply connectToHost_mutex.
    + intros c. destruct (relayData_registries st ws m) as [-> ->]. apply M.
  - eapply no_new_entries_mutex; [apply on_close_no_new | done].
  - eapply no_new_entries_mutex; [apply pingInterval_no_new | done].
Qed.

(** [registerHost] accepts a code that has an active session. *)
Lemma registerHost_reuses_session_code st ws m c s :
  prints (device_name m) = true → prints (device_id m) = true →
  code m = Some c → String.length c = 9 →
  waitingHosts st !! c = None → sessions st !! c = Some s →
  waitingHosts (registerHost st ws m) !! c = Some ws ∧
  sessions (registerHost st ws m) !! c = Some s.
Proof.
  intros Hn Hi Hc Hlen Hw Hs. unfold registerHost. rewrite Hn, Hi, Hc. simpl.
  apply invalid_code_false in Hlen. rewrite Hlen.
  rewrite bool_decide_eq_false_2 by (rewrite Hw; by intros [? ?]).
  simpl. by rewrite lookup_insert_eq.
Qed.

(** C1: the registries are not kept apart.  A code that has an active
    session is registered again by a third connection, [registerHost] only
    consulting [waitingHosts]; the code is then a key of both maps. *)
Theorem C1_code_in_both_registries :
  let st := run initial reuse_while_paired in
  waitingHosts st !! ABC123XYZ = Some 2 ∧
  sessions st !! ABC123XYZ = Some {| host := 0; client := 1 |} ∧
  ¬ mutex st.
Proof.
  assert (waitingHosts (run initial reuse_while_paired) !! ABC123XYZ = Some 2) as H1
    by (vm_compute; done).
  assert (sessions (run initial reuse_while_paired) !! ABC123XYZ
          = Some {| host := 0; client := 1 |}) as H2 by (vm_compute; done).
  cbv zeta. split_and!; [done|done|].
  intros M. destruct (M ABC123XYZ) as [H|H].
  - rewrite H1 in H. discriminate.
  - rewrite H2 in H. discriminate.
Qed.

(** ** Relay *)

(** C2 as stated fails: the pairing under [ABC123XYZ] succeeded, the
    client's socket is closing, and the relay message of the host is
    dropped; the transport log holds the three frames of the registration
    and the pairing and nothing else. *)
Lemma C2_relay_to_closing_client_is_dropped :
  let st := run initial pairing_then_client_closing in
  sessions st !! ABC123XYZ = Some {| host := 0; client := 1 |} ∧
  sessionCode_of st 0 = Some ABC123XYZ ∧
  role_of st 0 = Some host_role ∧
  sent (step st (Incoming 0 (relay payload_x1))) =
    [ Send 0 (registered ABC123XYZ);
      Send 0 (peer_connected bob bob);
      Send 1 (connected_to_host alice alice) ].
Proof. vm_compute. done. Qed.

(** The relay of a connection that has the role host and a session under
    its code goes to the client of that session, if its socket is open. *)
Lemma relayData_from_host st h s c m :
  sessions st !! c = Some s →
  sessionCode_of st h = Some c →
  role_of st h = Some host_role →
  relayData st h m =
    if is_open st (client s)
    then send (client s) (relayed (Some host_role) (data m)) st else st.
Proof.
  intros Hs Hc Hr. unfold relayData. rewrite Hc. simpl. rewrite Hs.
  unfold other_side. rewrite Hr. by rewrite bool_decide_eq_true_2.
Qed.

(** A host that waits under [c] with the role host is paired with another
    connection [cl]; its next relay message reaches [cl] once. *)
Lemma relay_right_after_pairing st h cl c mc m :
  h ≠ cl →
  waitingHosts st !! c = Some h → is_open st h = true →
  sessionCode_of st h = Some c → role_of st h = Some host_role →
  is_open st cl = true → code mc = Some c →
  let st1 := connectToHost st cl mc in
  sessions st1 !! c = Some {| host := h; client := cl |} ∧
  relayData st1 h m = send cl (relayed (Some host_role) (data m)) st1.
Proof.
  intros Hne Hw Ho Hc Hr Hcl Hmc st1.
  assert (conns st1 = alter (bind_conn c client_role mc) cl (conns st) ∧
          sessions st1 = <[c := {| host := h; client := cl |}]> (sessions st))
    as [Ecs Ess].
  { unfold st1, connectToHost, waiting_host. rewrite Hmc. simpl.
    rewrite Hw, Ho. simpl. by destruct (negb _). }
  assert (sessions st1 !! c = Some {| host := h; client := cl |}) as Hs.
  { rewrite Ess. apply lookup_insert_eq. }
  split; [done|].
  rewrite (relayData_from_host st1 h {| host := h; client := cl |} c m); simpl.
  - assert (is_open st1 cl = true) as ->; [|done].
    unfold is_open in *. rewrite Ecs, lookup_alter_eq.
    by destruct (conns st !! cl).
  - done.
  - unfold sessionCode_of in *. by rewrite Ecs, lookup_alter_ne.
  - unfold role_of in *. by rewrite Ecs, lookup_alter_ne.
Qed.

(** C2, amended: while the session under [c] pairs host [h] with client
    [cl], and [h] still carries the code [c] and the role host, a relay
    message of [h] with payload [P] adds exactly one frame to the transport
    log, [relayed{from: host, data: P}] addressed to [cl], when the socket
    of [cl] is open; when it is not open nothing is sent.  No other
    connection receives anything and the rest of the state is unchanged. *)
Theorem C2_relay_from_host_reaches_client_once st h cl c m :
  sessions st !! c = Some {| host := h; client := cl |} →
  sessionCode_of st h = Some c →
  role_of st h = Some host_role →
  type m = Some "relay" →
  (is_open st cl = true →
     handleMessage st h m = send cl (relayed (Some host_role) (data m)) st ∧
     sent (handleMessage st h m) =
       sent st ++ [Send cl (relayed (Some host_role) (data m))]) ∧
  (is_open st cl = false → handleMessage st h m = st).
Proof.
  intros Hs Hc Hr Ht.
  assert (handleMessage st h m = relayData st h m) as ->.
  { unfold handleMessage. by rewrite Ht. }
  rewrite (relayData_from_host st h _ c m Hs Hc Hr). simpl.
  split; intros ->; done.
Qed.

(** Right after the pairing of connections 0 and 1 the payload [{x: 1}] of
    the host reaches the client. *)
Lemma C2_relay_from_host_reaches_client_once_witness :
  let st := run initial pairing in
  let m := {| type := Some "relay"; code := None; device_id := None;
              device_name := None; data := payload_x1 |} in
  sent (handleMessage st 0 m) =
    sent st ++ [Send 1 (relayed (Some host_role) payload_x1)].
Proof.
  intros st m.
  refine (proj2 (proj1 (C2_relay_from_host_reaches_client_once
                          st 0 1 ABC123XYZ m _ _ _ _) _));
    vm_compute; reflexivity.
Defined.

(** X26: a relay message changes neither [wss.clients], nor any [ws] object,
    nor [waitingHosts], nor [sessions]; the transport log either stays as it
    is or grows by one [relayed] frame that carries the payload.  Without a
    session under the sender's [sessionCode] the state is unchanged, and so
    it is when the peer's socket is not open: nothing is sent, to the sender
    or to anyone. *)
Theorem relay_changes_no_state st ws m :
  type m = Some "relay" →
  let st' := handleMessage st ws m in
  clients st' = clients st ∧ conns st' = conns st ∧
  waitingHosts st' = waitingHosts st ∧ sessions st' = sessions st ∧
  (sent st' = sent st ∨
   ∃ target, sent st' = sent st ++ [Send target (relayed (role_of st ws) (data m))]) ∧
  (sessionCode_of st ws ≫= (sessions st !!.) = None → st' = st) ∧
  (∀ s, sessionCode_of st ws ≫= (sessions st !!.) = Some s →
        is_open st (other_side st ws s) = false → st' = st).
Proof.
  intros Ht st'. subst st'.
  assert (handleMessage st ws m = relayData st ws m) as ->.
  { unfold handleMessage. by rewrite Ht. }
  unfold relayData.
  destruct (sessionCode_of st ws ≫= _) as [s|].
  - destruct (is_open st (other_side st ws s)) eqn:Ho; simpl.
    + split_and!; try done.
      * right. by eexists.
      * intros s' [= <-]. by rewrite Ho.
    + split_and!; try done. by left.
  - split_and!; try done. by left.
Qed.

(** With the client's socket closing, the relay of the host changes nothing. *)
Lemma relay_changes_no_state_witness :
  let st := run initial pairing_then_client_closing in
  let m := {| type := Some "relay"; code := None; device_id := None;
              device_name := None; data := payload_x1 |} in
  handleMessage st 0 m = st.
Proof.
  intros st m.
  refine (proj2 (proj2 (proj2 (proj2 (proj2 (proj2
            (relay_changes_no_state st 0 m _))))))
            {| host := 0; client := 1 |} _ _);
    vm_compute; reflexivity.
Defined.

(** C7: a relay message of a sender without an active session is not
    always a no-op.  Connection 1 was the client of a session under
    [ABC123XYZ] that was torn down when its host closed; connections 2 and 3
    have since paired under the same code.  Connection 1 is a member of no
    session, yet [relayData] looks the session up by the sender's
    [sessionCode] alone, takes the sender's role for a side of it, and
    forwards the payload of connection 1 to connection 2, the host of the
    other pair. *)
Theorem C7_relay_of_a_torn_down_sender_is_forwarded :
  let st := run initial code_reused_by_others in
  sessionCode_of st 1 = Some ABC123XYZ ∧
  role_of st 1 = Some client_role ∧
  waitingHosts st !! ABC123XYZ = None ∧
  sessions st !! ABC123XYZ = Some {| host := 2; client := 3 |} ∧
  sent (step st (Incoming 1 (relay payload_x1))) =
    sent st ++ [Send 2 (relayed (Some client_role) payload_x1)].
Proof. vm_compute. done. Qed.

(** ** Bad input *)

(** C8: a frame that does not parse, a frame that parses to [null], and a
    message whose type tag is none of [register_host], [connect_to_host],
    [relay], [ping] leave the whole state as it is: no registry and no
    [ws] object changes, nothing is sent, and the ready state of the
    receiving socket is what it was. *)
Theorem C8_bad_input_is_discarded st ws f :
  f = Undecodable ∨ f = JsonNull ∨ (∃ m, f = Decoded m ∧ ¬ known_type (type m)) →
  on_message st ws f = st ∧
  step st (Incoming ws f) = st ∧
  sent (step st (Incoming ws f)) = sent st ∧
  conns (step st (Incoming ws f)) !! ws = conns st !! ws.
Proof.
  intros H.
  assert (on_message st ws f = st) as E.
  { destruct H as [->|[->|[m [-> Hm]]]]; try done.
    simpl. by apply handleMessage_unknown. }
  assert (step st (Incoming ws f) = st) as E'.
  { simpl. case_bool_decide; done. }
  by rewrite E'.
Qed.

(** An undecodable frame and a message of type [subscribe] change nothing. *)
Lemma C8_bad_input_is_discarded_witness :
  let st := run initial pairing in
  let f := Decoded {| type := Some "subscribe"; code := Some ABC123XYZ;
                      device_id := None; device_name := None; data := None |} in
  step st (Incoming 0 Undecodable) = st ∧ step st (Incoming 1 f) = st.
Proof.
  intros st f. split.
  - refine (proj1 (proj2 (C8_bad_input_is_discarded st 0 Undecodable _))).
    left. reflexivity.
  - refine (proj1 (proj2 (C8_bad_input_is_discarded st 1 f _))).
    right. right. exists {| type := Some "subscribe"; code := Some ABC123XYZ;
                             device_id := None; device_name := None; data := None |}.
    split; [reflexivity|].
    intros [H|[H|[H|H]]]; discriminate H.
Defined.

(** ** Registration *)

(** The three ways [registerHost] ends: it throws at its first log or
    answers an error, nothing else changing, or it registers the sender. *)
Lemma registerHost_cases st ws m :
  registerHost st ws m = st ∨
  (∃ e, registerHost st ws m = send ws (error e) st) ∨
  (∃ c, code m = Some c ∧ String.length c = 9 ∧ waitingHosts st !! c = None ∧
        prints (device_name m) = true ∧ prints (device_id m) = true ∧
        registerHost st ws m =
          send ws (registered c)
            (set_waitingHosts (insert c ws)
               (set_conns (alter (bind_conn c host_role m) ws) st))).
Proof.
  unfold registerHost.
  destruct (prints (device_name m)) eqn:Hn; [|by left].
  destruct (prints (device_id m)) eqn:Hi; [|by left]. simpl.
  destruct (code m) as [c|] eqn:Hc; [|right; left; by eexists].
  destruct (invalid_code c) eqn:Hv; [right; left; by eexists|].
  case_bool_decide as Hin; [right; left; by eexists|].
  right; right. exists c. split_and!; try done.
  - by apply invalid_code_false.
  - destruct (waitingHosts st !! c) eqn:E; [|done]. destruct Hin. by eexists.
Qed.

(** C3 as stated fails: the code [ABC] is not empty and is not a key of
    [waitingHosts], and its registration is rejected as invalid. *)
Lemma C3_short_code_is_rejected :
  let st := run initial one_connection in
  waitingHosts st !! "ABC" = None ∧
  step st (Incoming 0 register_ABC) = send 0 (error "Código inválido") st.
Proof. vm_compute. done. Qed.

(** C3, amended: for a message whose [device_name] and [device_id] can be
    printed, [registerHost] answers [error{Código inválido}] and changes
    nothing when the code is absent or its length is not 9.  For a code of
    length 9 it answers [error{Código en uso}], changing nothing, if and only
    if the code is a key of [waitingHosts]; otherwise it sets the sender's
    [sessionCode] to the code and its [role] to host, stores [device_id] and
    [device_name] on it, maps the code to the sender in [waitingHosts],
    leaves [sessions] alone and answers [registered{code}]. *)
Theorem C3_registerHost_contract st ws m x :
  prints (device_name m) = true → prints (device_id m) = true →
  conns st !! ws = Some x →
  let st' := registerHost st ws m in
  (code m = None → st' = send ws (error "Código inválido") st) ∧
  (∀ c, code m = Some c → String.length c ≠ 9 →
        st' = send ws (error "Código inválido") st) ∧
  (∀ c, code m = Some c → String.length c = 9 →
        (st' = send ws (error "Código en uso") st ↔ is_Some (waitingHosts st !! c)) ∧
        (waitingHosts st !! c = None →
           conns st' = <[ws := bind_conn c host_role m x]> (conns st) ∧
           role_of st' ws = Some host_role ∧
           sessionCode_of st' ws = Some c ∧
           deviceId_of st' ws = device_id m ∧
           deviceName_of st' ws = device_name m ∧
           waitingHosts st' = <[c := ws]> (waitingHosts st) ∧
           sessions st' = sessions st ∧
           clients st' = clients st ∧
           sent st' = sent st ++ [Send ws (registered c)])).
Proof.
  intros Hn Hi Hx st'. subst st'. unfold registerHost.
  rewrite Hn, Hi. simpl. split_and!.
  - by intros ->.
  - intros c -> Hlen. apply invalid_code_true in Hlen. by rewrite Hlen.
  - intros c -> Hlen. apply invalid_code_false in Hlen. rewrite Hlen.
    case_bool_decide as Hin.
    + split; [done|]. intros Hnone. rewrite Hnone in Hin. by destruct Hin.
    + split.
      * split; [|done]. intros E. apply (f_equal sent) in E. simpl in E.
        apply app_inv_head in E. discriminate E.
      * intros _. simpl.
        unfold role_of, sessionCode_of, deviceId_of, deviceName_of. simpl.
        rewrite (bind_alter_insert _ _ _ _ _ _ Hx), lookup_insert_eq. done.
Qed.

(** The first registration of [ABC123XYZ] succeeds. *)
Lemma C3_registerHost_contract_witness :
  let st := run initial one_connection in
  let m := {| type := Some "register_host"; code := Some ABC123XYZ;
              device_id := alice; device_name := alice; data := None |} in
  waitingHosts (registerHost st 0 m) = <[ABC123XYZ := 0]> (waitingHosts st) ∧
  sent (registerHost st 0 m) = sent st ++ [Send 0 (registered ABC123XYZ)].
Proof.
  intros st m.
  assert (conns st !! 0 = Some new_conn) as Hx by (vm_compute; reflexivity).
  assert (code m = Some ABC123XYZ) as Hc by reflexivity.
  assert (String.length ABC123XYZ = 9) as Hl by reflexivity.
  assert (waitingHosts st !! ABC123XYZ = None) as Hw by (vm_compute; reflexivity).
  pose proof (proj2 (proj2 (proj2
                (C3_registerHost_contract st 0 m new_conn eq_refl eq_refl Hx))
                       ABC123XYZ Hc Hl) Hw) as H.
  split; apply H.
Defined.

(** ** Pairing *)

(** The outcome of [connectToHost] when an open host waits under the code,
    field by field; the two notifications are sent if the log between the
    updates and the notifications can print both names. *)
Lemma connectToHost_success st ws m c h :
  code m = Some c → waitingHosts st !! c = Some h → is_open st h = true →
  let st' := connectToHost st ws m in
  clients st' = clients st ∧
  conns st' = alter (bind_conn c client_role m) ws (conns st) ∧
  waitingHosts st' = delete c (waitingHosts st) ∧
  sessions st' = <[c := {| host := h; client := ws |}]> (sessions st) ∧
  sent st' =
    if prints (device_name m) && prints (deviceName_of st' h)
    then sent st ++
           [ Send h (peer_connected (device_id m) (device_name m));
             Send ws (connected_to_host (deviceId_of st' h) (deviceName_of st' h)) ]
    else sent st.
Proof.
  intros Hc Hw Ho st'. subst st'. unfold connectToHost, waiting_host.
  rewrite Hc. simpl. rewrite Hw, Ho. simpl.
  match goal with |- context [negb ?b] => destruct b eqn:Hp end; simpl.
  - split_and!; try done.
    unfold deviceName_of in *. simpl in *. rewrite Hp. by rewrite <- app_assoc.
  - split_and!; try done.
    unfold deviceName_of in *. simpl in *. by rewrite Hp.
Qed.

Lemma connectToHost_failure st ws m :
  waiting_host st (code m) = None ∨
  (∃ h, waiting_host st (code m) = Some h ∧ is_open st h = false) →
  connectToHost st ws m = send ws (connection_failed host_not_found) st.
Proof.
  unfold connectToHost. intros [->|[h [-> Ho]]].
  - by destruct (code m).
  - rewrite Ho. by destruct (code m).
Qed.

(** The two ways [connectToHost] goes: it answers [connection_failed], or an
    open host waits under the code. *)
Lemma connectToHost_cases st ws m :
  connectToHost st ws m = send ws (connection_failed host_not_found) st ∨
  ∃ c h, code m = Some c ∧ waitingHosts st !! c = Some h ∧ is_open st h = true.
Proof.
  destruct (code m) as [c|] eqn:Hc.
  2:{ left. apply connectToHost_failure. left. by rewrite Hc. }
  destruct (waitingHosts st !! c) as [h|] eqn:Hw.
  2:{ left. apply connectToHost_failure. left. rewrite Hc. done. }
  destruct (is_open st h) eqn:Ho; [right; by exists c, h|].
  left. apply connectToHost_failure. right. exists h. rewrite Hc. done.
Qed.

(** X24: the contract of [connectToHost].  It answers [connection_failed] and
    changes nothing else exactly when no connection is stored under the code
    in [waitingHosts] or the stored connection's socket is not open.
    Otherwise it sets the sender's role to client and its [sessionCode] to
    the code, deletes the code from [waitingHosts] and stores
    [{host, client: sender}] under the code in [sessions]; it then sends
    [peer_connected] to the host and [connected_to_host] to the sender if
    the name of the message and the name stored on the host can be printed,
    and sends nothing if one of them cannot. *)
Theorem connectToHost_contract st ws m :
  let st' := connectToHost st ws m in
  let failed := st' = send ws (connection_failed host_not_found) st in
  (failed ↔
     waiting_host st (code m) = None ∨
     (∃ h, waiting_host st (code m) = Some h ∧ is_open st h = false)) ∧
  (failed →
     waitingHosts st' = waitingHosts st ∧ sessions st' = sessions st ∧
     conns st' = conns st) ∧
  (∀ c h, code m = Some c → waitingHosts st !! c = Some h → is_open st h = true →
     (is_Some (conns st !! ws) →
        role_of st' ws = Some client_role ∧ sessionCode_of st' ws = Some c ∧
        deviceId_of st' ws = device_id m ∧ deviceName_of st' ws = device_name m) ∧
     waitingHosts st' = delete c (waitingHosts st) ∧
     sessions st' = <[c := {| host := h; client := ws |}]> (sessions st) ∧
     (prints (device_name m) = true → prints (deviceName_of st' h) = true →
        sent st' = sent st ++
          [ Send h (peer_connected (device_id m) (device_name m));
            Send ws (connected_to_host (deviceId_of st' h) (deviceName_of st' h)) ]) ∧
     (prints (device_name m) = false ∨ prints (deviceName_of st' h) = false →
        sent st' = sent st)).
Proof.
  intros st' failed. split_and!.
  - split; [|apply connectToHost_failure].
    intros Hf. unfold failed in Hf.
    destruct (waiting_host st (code m)) as [h|] eqn:Hw; [|by left].
    right. exists h. split; [done|].
    destruct (is_open st h) eqn:Ho; [|done]. exfalso.
    unfold waiting_host in Hw. destruct (code m) as [c|] eqn:Hc; [|done].
    simpl in Hw.
    destruct (connectToHost_success st ws m c h Hc Hw Ho) as (_ & _ & _ & _ & Hs).
    fold st' in Hs. apply (f_equal sent) in Hf. rewrite Hs in Hf.
    apply (f_equal length) in Hf. simpl in Hf.
    destruct (_ && _); rewrite ?length_app in Hf; simpl in Hf; lia.
  - intros Hf. unfold failed in Hf. by rewrite Hf.
  - intros c h Hc Hw Ho.
    destruct (connectToHost_success st ws m c h Hc Hw Ho) as (_ & Hcs & Hwh & Hss & Hs).
    fold st' in Hcs, Hwh, Hss, Hs. split_and!; try done.
    + intros [x Hx]. unfold role_of, sessionCode_of, deviceId_of, deviceName_of.
      rewrite Hcs, lookup_alter_eq, Hx. done.
    + intros H1 H2. by rewrite Hs, H1, H2.
    + intros [H|H]; rewrite Hs, H; [done|]. by rewrite andb_false_r.
Qed.

(** Connection 1 pairs with the open host 0, and is turned away when the
    socket of host 0 is closing. *)
Lemma connectToHost_contract_witness :
  let st := run initial registered_host in
  let st1 := on_connection st in
  let m := {| type := Some "connect_to_host"; code := Some ABC123XYZ;
              device_id := bob; device_name := bob; data := None |} in
  role_of (connectToHost st1 1 m) 1 = Some client_role ∧
  waitingHosts (connectToHost st1 1 m) = delete ABC123XYZ (waitingHosts st1) ∧
  sent (connectToHost st1 1 m) = sent st1 ++
    [ Send 0 (peer_connected bob bob); Send 1 (connected_to_host alice alice) ] ∧
  connectToHost (on_closing st1 0) 1 m
    = send 1 (connection_failed host_not_found) (on_closing st1 0).
Proof.
  intros st st1 m.
  assert (waitingHosts st1 !! ABC123XYZ = Some 0) as Hw by (vm_compute; reflexivity).
  assert (is_open st1 0 = true) as Ho by (vm_compute; reflexivity).
  pose proof (proj2 (proj2 (connectToHost_contract st1 1 m)) ABC123XYZ 0 eq_refl Hw Ho)
    as (H1 & H2 & _ & H3 & _).
  split_and!.
  - apply H1. exists new_conn. vm_compute. reflexivity.
  - exact H2.
  - rewrite H3; vm_compute; reflexivity.
  - refine (proj2 (proj1 (connectToHost_contract (on_closing st1 0) 1 m)) _).
    right. exists 0. split; vm_compute; reflexivity.
Defined.

(** C4: a pairing does not always send its two notifications.  An open host
    waits under [ABC123XYZ]; connection 1 sends [connect_to_host] with that
    code and, as [device_name], the JSON object [{toString: 1}].  The
    sender is bound as client, the code leaves [waitingHosts] and the
    session is stored; the log that follows cannot print the name, the
    function throws, and neither [peer_connected] nor [connected_to_host]
    is sent. *)
Theorem C4_pairing_without_notifications :
  let st := run initial host_and_guest in
  let st' := step st (Incoming 1 connect_unprintable) in
  waitingHosts st !! ABC123XYZ = Some 0 ∧ is_open st 0 = true ∧
  role_of st' 1 = Some client_role ∧
  sessionCode_of st' 1 = Some ABC123XYZ ∧
  waitingHosts st' !! ABC123XYZ = None ∧
  sessions st' !! ABC123XYZ = Some {| host := 0; client := 1 |} ∧
  sent st' = sent st.
Proof. vm_compute. done. Qed.

(** X25: a waiting host that sends [connect_to_host] with its own code and
    a name that can be printed is paired with itself.  Its role is
    overwritten from host to client, the code leaves [waitingHosts], the
    session stored under the code has the connection as host and as client,
    and the connection is sent both [peer_connected] and
    [connected_to_host]; the latter carries the identity of the same
    message, the host object being the sender. *)
Theorem host_pairs_with_itself st ws c m x :
  conns st !! ws = Some x →
  readyState x = OPEN →
  role x = Some host_role →
  waitingHosts st !! c = Some ws →
  type m = Some "connect_to_host" →
  code m = Some c →
  prints (device_name m) = true →
  let st' := handleMessage st ws m in
  role_of st ws = Some host_role ∧
  role_of st' ws = Some client_role ∧
  sessionCode_of st' ws = Some c ∧
  waitingHosts st' !! c = None ∧
  sessions st' !! c = Some {| host := ws; client := ws |} ∧
  sent st' = sent st ++
    [ Send ws (peer_connected (device_id m) (device_name m));
      Send ws (connected_to_host (device_id m) (device_name m)) ].
Proof.
  intros Hx Hopen Hrole Hw Ht Hc Hp st'.
  assert (st' = connectToHost st ws m) as E.
  { unfold st', handleMessage. by rewrite Ht. }
  assert (is_open st ws = true) as Ho.
  { unfold is_open. rewrite Hx. by apply bool_decide_eq_true_2. }
  destruct (connectToHost_success st ws m c ws Hc Hw Ho) as (_ & Hcs & Hwh & Hss & Hs).
  rewrite <- E in Hcs, Hwh, Hss, Hs.
  assert (conns st' !! ws = Some (bind_conn c client_role m x)) as Hx'.
  { by rewrite Hcs, lookup_alter_eq, Hx. }
  split_and!.
  - unfold role_of. by rewrite Hx.
  - unfold role_of. by rewrite Hx'.
  - unfold sessionCode_of. by rewrite Hx'.
  - rewrite Hwh. apply lookup_delete_eq.
  - rewrite Hss. apply lookup_insert_eq.
  - rewrite Hs. unfold deviceId_of, deviceName_of. rewrite Hx'. simpl.
    by rewrite Hp.
Qed.

(** The host of [ABC123XYZ] pairs with itself. *)
Lemma host_pairs_with_itself_witness :
  let st := run initial registered_host in
  let m := {| type := Some "connect_to_host"; code := Some ABC123XYZ;
              device_id := bob; device_name := bob; data := None |} in
  sessions (handleMessage st 0 m) !! ABC123XYZ = Some {| host := 0; client := 0 |} ∧
  sent (handleMessage st 0 m) = sent st ++
    [ Send 0 (peer_connected bob bob); Send 0 (connected_to_host bob bob) ].
Proof.
  intros st m.
  assert (conns st !! 0 = Some (bind_conn ABC123XYZ host_role
            {| type := Some "register_host"; code := Some ABC123XYZ;
               device_id := alice; device_name := alice; data := None |} new_conn))
    as Hx by (vm_compute; reflexivity).
  assert (waitingHosts st !! ABC123XYZ = Some 0) as Hw by (vm_compute; reflexivity).
  pose proof (host_pairs_with_itself st 0 ABC123XYZ m _ Hx eq_refl eq_refl Hw eq_refl eq_refl
                eq_refl) as H.
  split; apply H.
Defined.

(** C10: a self-pairing does not always deliver its two notifications.  The
    waiting host of [ABC123XYZ] sends [connect_to_host] with its own code
    and, as [device_name], the JSON object [{toString: 1}].  Its role is
    overwritten from host to client, the code moves from [waitingHosts] to
    [sessions] and the session has the connection as host and as client;
    the log that follows cannot print the name, the function throws, and
    the connection is sent neither [peer_connected] nor
    [connected_to_host]. *)
Theorem C10_self_pairing_without_notifications :
  let st := run initial registered_host in
  let st' := step st (Incoming 0 connect_unprintable) in
  waitingHosts st !! ABC123XYZ = Some 0 ∧ role_of st 0 = Some host_role ∧
  role_of st' 0 = Some client_role ∧
  waitingHosts st' !! ABC123XYZ = None ∧
  sessions st' !! ABC123XYZ = Some {| host := 0; client := 0 |} ∧
  sent st' = sent st.
Proof. vm_compute. done. Qed.

(** ** Roles *)

Lemma same_binding_refl st : same_binding st st.
Proof. by intros ws. Qed.

Lemma same_binding_trans st1 st2 st3 :
  same_binding st1 st2 → same_binding st2 st3 → same_binding st1 st3.
Proof.
  intros H1 H2 ws. destruct (H1 ws) as [<- <-]. apply H2.
Qed.

Lemma same_binding_alter f w st st' :
  (∀ x, role (f x) = role x) → (∀ x, sessionCode (f x) = sessionCode x) →
  conns st' = alter f w (conns st) → same_binding st st'.
Proof.
  intros Hr Hc E ws. unfold role_of, sessionCode_of. rewrite E.
  destruct (decide (w = ws)) as [->|].
  - rewrite lookup_alter_eq. destruct (conns st !! ws); simpl; auto.
  - by rewrite lookup_alter_ne.
Qed.

Lemma closing_role x : role (closing x) = role x.
Proof. unfold closing. by case_bool_decide. Qed.

Lemma closing_sessionCode x : sessionCode (closing x) = sessionCode x.
Proof. unfold closing. by case_bool_decide. Qed.

Lemma sweep_one_binding st w : same_binding st (sweep_one st w).
Proof.
  unfold sweep_one. destruct (negb (alive st w)).
  - eapply (same_binding_alter closing w);
      [apply closing_role | apply closing_sessionCode |].
    simpl. by rewrite handleDisconnect_conns.
  - by eapply (same_binding_alter (set_isAlive false) w).
Qed.

Lemma sweep_binding l st : same_binding st (foldl sweep_one st l).
Proof.
  revert st. induction l as [|w l IH]; intros st; simpl.
  - apply same_binding_refl.
  - eapply same_binding_trans; [apply sweep_one_binding | apply IH].
Qed.

Lemma on_close_binding st w : same_binding st (on_close st w).
Proof.
  eapply (same_binding_alter (set_readyState CLOSED) w); [done|done|].
  apply on_close_conns.
Qed.

Lemma on_connection_binding st : same_binding st (on_connection st).
Proof.
  intros ws. unfold role_of, sessionCode_of, on_connection. simpl.
  destruct (decide (fresh (dom (conns st)) = ws)) as [<-|].
  - rewrite lookup_insert_eq.
    assert (conns st !! fresh (dom (conns st)) = None) as ->; [|done].
    apply not_elem_of_dom. apply is_fresh.
  - by rewrite lookup_insert_ne.
Qed.

(** What a message does to the role and the [sessionCode] of a connection:
    nothing, unless it is the connection's own successful registration or
    pairing. *)
Lemma handleMessage_binding st w m ws :
  (role_of (handleMessage st w m) ws = role_of st ws ∧
   sessionCode_of (handleMessage st w m) ws = sessionCode_of st ws) ∨
  (∃ c, w = ws ∧ code m = Some c ∧ is_Some (conns st !! ws) ∧
        sessionCode_of (handleMessage st w m) ws = Some c ∧
        ((type m = Some "register_host" ∧ String.length c = 9 ∧
          waitingHosts st !! c = None ∧
          role_of (handleMessage st w m) ws = Some host_role) ∨
         (type m = Some "connect_to_host" ∧
          (∃ h, waitingHosts st !! c = Some h ∧ is_open st h = true) ∧
          role_of (handleMessage st w m) ws = Some client_role))).
Proof.
  destruct (handleMessage_cases st w m)
    as [[Ht ->]|[[Ht ->]|[[_ ->]|[[_ ->]|[_ ->]]]]]; try by left.
  - destruct (registerHost_cases st w m)
      as [->|[[e ->]|(c & Hc & Hlen & Hw & _ & _ & ->)]]; [by left|by left|].
    unfold role_of, sessionCode_of. simpl.
    destruct (decide (w = ws)) as [->|]; [|left; by rewrite lookup_alter_ne].
    rewrite lookup_alter_eq.
    destruct (conns st !! ws) as [x|] eqn:Hx; [|by left].
    right. exists c. split_and!; try done. left. by split_and!.
  - destruct (connectToHost_cases st w m) as [->|(c & h & Hc & Hw & Ho)];
      [by left|].
    destruct (connectToHost_success st w m c h Hc Hw Ho) as (_ & Ecs & _).
    unfold role_of, sessionCode_of. rewrite Ecs.
    destruct (decide (w = ws)) as [->|]; [|left; by rewrite lookup_alter_ne].
    rewrite lookup_alter_eq.
    destruct (conns st !! ws) as [x|] eqn:Hx; [|by left].
    right. exists c. split_and!; try done. right. split_and!; try done.
    by exists h.
  - left. unfold role_of, sessionCode_of. by rewrite relayData_conns.
Qed.

Lemma step_binding st ev ws :
  (role_of (step st ev) ws = role_of st ws ∧
   sessionCode_of (step st ev) ws = sessionCode_of st ws) ∨
  (∃ m c, ev = Incoming ws (Decoded m) ∧ code m = Some c ∧
        sessionCode_of (step st ev) ws = Some c ∧
        ((type m = Some "register_host" ∧ String.length c = 9 ∧
          waitingHosts st !! c = None ∧
          role_of (step st ev) ws = Some host_role) ∨
         (type m = Some "connect_to_host" ∧
          (∃ h, waitingHosts st !! c = Some h ∧ is_open st h = true) ∧
          role_of (step st ev) ws = Some client_role))).
Proof.
  destruct ev as [|w|w f|w|w|]; simpl.
  - left. apply on_connection_binding.
  - left. by apply (same_binding_alter (set_isAlive true) w st).
  - case_bool_decide as Hex; [|by left].
    destruct f as [| |m]; try by left. simpl.
    destruct (handleMessage_binding st w m ws) as [H|(c & -> & Hc & _ & Hs & H)];
      [by left|].
    right. exists m, c. done.
  - left. apply (same_binding_alter closing w st);
      [apply closing_role | apply closing_sessionCode | done].
  - left. apply on_close_binding.
  - left. apply sweep_binding.
Qed.

(** C5 as stated fails: connection 0 has registered [ABC123XYZ] and has the
    role host; its [connect_to_host] for the code of another waiting host
    succeeds and overwrites both its role and its [sessionCode]. *)
Lemma C5_bound_host_becomes_client :
  let st := run initial host_turns_client in
  let st' := step st (Incoming 0 (connect_to_host QRS456TUV alice alice)) in
  role_of st 0 = Some host_role ∧ sessionCode_of st 0 = Some ABC123XYZ ∧
  role_of st' 0 = Some client_role ∧ sessionCode_of st' 0 = Some QRS456TUV.
Proof. vm_compute. done. Qed.

(** C5, amended: a connection is created with [role] and [sessionCode]
    null.  An event changes the role or the [sessionCode] of a connection
    only if it is a message of that connection carrying a code and is
    either a [register_host] that succeeds (the code has length 9 and is
    not in [waitingHosts]), after which the role is host, or a
    [connect_to_host] that succeeds (an open host waits under the code),
    after which the role is client; the [sessionCode] is then the code of
    the message.  The current role of the sender is not consulted.  A role
    that is set is never null again. *)
Theorem C5_role_transitions st ev ws :
  (role_of (on_connection st) (fresh (dom (conns st))) = None ∧
   sessionCode_of (on_connection st) (fresh (dom (conns st))) = None) ∧
  (is_Some (role_of st ws) → is_Some (role_of (step st ev) ws)) ∧
  (role_of (step st ev) ws ≠ role_of st ws ∨
   sessionCode_of (step st ev) ws ≠ sessionCode_of st ws →
   ∃ m c, ev = Incoming ws (Decoded m) ∧ code m = Some c ∧
     sessionCode_of (step st ev) ws = Some c ∧
     ((type m = Some "register_host" ∧ String.length c = 9 ∧
       waitingHosts st !! c = None ∧
       role_of (step st ev) ws = Some host_role) ∨
      (type m = Some "connect_to_host" ∧
       (∃ h, waitingHosts st !! c = Some h ∧ is_open st h = true) ∧
       role_of (step st ev) ws = Some client_role))).
Proof.
  split; [|split].
  - unfold role_of, sessionCode_of, on_connection. simpl.
    by rewrite lookup_insert_eq.
  - intros Hsome.
    destruct (step_binding st ev ws) as [[-> _]|(m & c & _ & _ & _ & [H|H])];
      [done| |].
    + destruct H as (_ & _ & _ & ->). done.
    + destruct H as (_ & _ & ->). done.
  - intros Hch.
    destruct (step_binding st ev ws) as [[E1 E2]|H]; [|done].
    destruct Hch; congruence.
Qed.

(** The role of connection 0 stays set across its own [connect_to_host]. *)
Lemma C5_role_transitions_witness :
  let st := run initial host_turns_client in
  let ev := Incoming 0 (connect_to_host QRS456TUV alice alice) in
  is_Some (role_of st 0) ∧ is_Some (role_of (step st ev) 0).
Proof.
  intros st ev.
  assert (is_Some (role_of st 0)) as H.
  { exists host_role. vm_compute. reflexivity. }
  split; [exact H|].
  exact (proj1 (proj2 (C5_role_transitions st ev 0)) H).
Defined.

(** ** Teardown *)

(** Teardown is idempotent on a state whose registries are apart. *)
Lemma handleDisconnect_idempotent st ws :
  mutex st →
  handleDisconnect (handleDisconnect st ws) ws = handleDisconnect st ws.
Proof.
  intros M. unfold handleDisconnect at 2 3.
  destruct (sessionCode_of st ws) as [c|] eqn:Hc.
  2:{ unfold handleDisconnect. by rewrite Hc. }
  case_bool_decide as Hempty.
  { unfold handleDisconnect. rewrite Hc. by rewrite bool_decide_eq_true_2. }
  case_bool_decide as Hw.
  - unfold handleDisconnect, sessionCode_of. simpl.
    unfold sessionCode_of in Hc. rewrite Hc.
    rewrite bool_decide_eq_false_2 by done.
    rewrite lookup_delete_eq. rewrite bool_decide_eq_false_2 by done.
    destruct (M c) as [E|E]; [congruence|]. by rewrite E.
  - destruct (sessions st !! c) as [s|] eqn:Hs.
    + unfold handleDisconnect, sessionCode_of. simpl.
      unfold sessionCode_of in Hc.
      assert (conns (if is_open st (other_side st ws s)
                     then send (other_side st ws s) peer_disconnected st else st)
              = conns st) as -> by by destruct (is_open st _).
      rewrite Hc. rewrite bool_decide_eq_false_2 by done.
      assert (waitingHosts (if is_open st (other_side st ws s)
                     then send (other_side st ws s) peer_disconnected st else st)
              = waitingHosts st) as -> by by destruct (is_open st _).
      rewrite bool_decide_eq_false_2 by done.
      by rewrite lookup_delete_eq.
    + unfold handleDisconnect. rewrite Hc.
      rewrite bool_decide_eq_false_2 by done.
      rewrite bool_decide_eq_false_2 by done. by rewrite Hs.
Qed.

(** Teardown changes nothing when the connection is not the waiting host of
    its code and no session is stored under the code. *)
Lemma handleDisconnect_noop st ws c :
  sessionCode_of st ws = Some c →
  waitingHosts st !! c ≠ Some ws → sessions st !! c = None →
  handleDisconnect st ws = st.
Proof.
  intros Hc Hw Hs. unfold handleDisconnect. rewrite Hc.
  case_bool_decide; [done|]. rewrite bool_decide_eq_false_2 by done.
  by rewrite Hs.
Qed.

(** Teardown ends whatever session is stored under the code of the
    connection, member or not. *)
Lemma handleDisconnect_ends_any_session st ws c s :
  sessionCode_of st ws = Some c → c ≠ "" →
  waitingHosts st !! c ≠ Some ws → sessions st !! c = Some s →
  sessions (handleDisconnect st ws) !! c = None ∧
  (is_open st (other_side st ws s) = true →
   sent (handleDisconnect st ws) =
     sent st ++ [Send (other_side st ws s) peer_disconnected]).
Proof.
  intros Hc Hne Hw Hs. unfold handleDisconnect. rewrite Hc.
  rewrite !bool_decide_eq_false_2 by done. rewrite Hs. simpl.
  split; [apply lookup_delete_eq|]. by intros ->.
Qed.

(** C6: teardown is not confined to the entries the connection owns.
    Connection 1 was the client of a session under [ABC123XYZ] that ended
    when its host closed; connections 2 and 3 have since paired under the
    same code.  Neither registry holds the code on behalf of connection 1,
    yet its [close] deletes the session of 2 and 3 and sends
    [peer_disconnected] to connection 2: the session branch of
    [handleDisconnect] lacks the identity test of the waiting-host branch.
    Nor is teardown idempotent: after a paired host has registered its code
    again, a first teardown removes its waiting entry and a second one goes
    on to end the session. *)
Theorem C6_teardown_ends_a_session_of_others :
  (let st := run initial code_reused_by_others in
   sessionCode_of st 1 = Some ABC123XYZ ∧
   waitingHosts st !! ABC123XYZ = None ∧
   sessions st !! ABC123XYZ = Some {| host := 2; client := 3 |} ∧
   sessions (step st (Close 1)) !! ABC123XYZ = None ∧
   sent (step st (Close 1)) = sent st ++ [Send 2 peer_disconnected]) ∧
  (let st := run initial host_registers_again in
   let once := handleDisconnect st 0 in
   let twice := handleDisconnect once 0 in
   sessions once !! ABC123XYZ = Some {| host := 0; client := 1 |} ∧
   sent once = sent st ∧
   sessions twice !! ABC123XYZ = None ∧
   sent twice = sent st ++ [Send 1 peer_disconnected]).
Proof. vm_compute. done. Qed.

(** ** The liveness sweep *)

Lemma sweep_one_conns st w : conns (sweep_one st w) = alter swept w (conns st).
Proof.
  unfold sweep_one, alive. apply map_eq. intros i.
  destruct (conns st !! w) as [x|] eqn:Hx.
  - destruct (isAlive x) eqn:Ha; simpl; rewrite ?handleDisconnect_conns.
    + alter_at i w. rewrite Hx. simpl. unfold swept. by rewrite Ha.
    + alter_at i w. rewrite Hx. simpl. unfold swept. by rewrite Ha.
  - simpl. rewrite handleDisconnect_conns.
    alter_at i w. by rewrite Hx.
Qed.

Lemma sweep_conns l st w :
  NoDup l →
  conns (foldl sweep_one st l) !! w =
    if decide (w ∈ l) then swept <$> conns st !! w else conns st !! w.
Proof.
  intros Hnd. revert st. induction Hnd as [|w0 l Hw0 Hnd IH]; intros st.
  - destruct (decide (w ∈ [])) as [Hin|_]; [|done]. by apply elem_of_nil in Hin.
  - change (foldl sweep_one st (w0 :: l)) with (foldl sweep_one (sweep_one st w0) l).
    rewrite IH, sweep_one_conns.
    destruct (decide (w ∈ l)) as [Hin'|Hin'];
      destruct (decide (w ∈ w0 :: l)) as [Hin|Hin].
    + assert (w ≠ w0) by (by intros ->). by rewrite lookup_alter_ne.
    + destruct Hin. by right.
    + apply elem_of_cons in Hin as [->|?]; [|done]. by rewrite lookup_alter_eq.
    + rewrite lookup_alter_ne; [done|]. intros ->. destruct Hin. by left.
Qed.

Lemma sweep_one_alive_ne st w w' :
  w' ≠ w → alive (sweep_one st w) w' = alive st w'.
Proof.
  intros Hne. unfold alive. by rewrite sweep_one_conns, lookup_alter_ne.
Qed.

Lemma handleDisconnect_sent st ws :
  ∃ d, sent (handleDisconnect st ws) = sent st ++ d ∧
       ∀ a, a ∈ d → ∃ o, a = Send o peer_disconnected.
Proof.
  assert (∃ d : list Action, sent st = sent st ++ d ∧
            ∀ a, a ∈ d → ∃ o, a = Send o peer_disconnected) as Hnil.
  { exists []. split; [by rewrite app_nil_r|]. by intros a ?%elem_of_nil. }
  unfold handleDisconnect. destruct (sessionCode_of st ws) as [c|]; [|done].
  repeat case_bool_decide; try done.
  destruct (sessions st !! c) as [s|]; [|done]. simpl.
  destruct (is_open st (other_side st ws s)); [|done]. simpl.
  eexists. split; [done|]. intros a ->%list_elem_of_singleton. by eexists.
Qed.

Lemma sweep_one_sent st w :
  ∃ d, sent (sweep_one st w) = sent st ++ d ∧
       (∀ w', Ping w' ∈ d ↔ w' = w ∧ alive st w = true) ∧
       (∀ w', Terminate w' ∈ d ↔ w' = w ∧ alive st w = false).
Proof.
  unfold sweep_one. destruct (alive st w) eqn:Ha; simpl.
  - exists [Ping w]. split; [done|]. split; intros w'.
    + rewrite list_elem_of_singleton. split; [by intros [= ->]|by intros [-> _]].
    + rewrite list_elem_of_singleton. split; [done|by intros [_ ?]].
  - destruct (handleDisconnect_sent st w) as (d & -> & Hd).
    exists (d ++ [Terminate w]). split; [by rewrite app_assoc|].
    split; intros w'; rewrite elem_of_app, list_elem_of_singleton.
    + split; [|by intros [_ ?]]. intros [Hin|?]; [|done].
      by destruct (Hd _ Hin).
    + split; [|intros [-> _]; by right]. intros [Hin|[= ->]]; [|done].
      by destruct (Hd _ Hin).
Qed.

Lemma sweep_sent l st :
  NoDup l →
  ∃ d, sent (foldl sweep_one st l) = sent st ++ d ∧
       (∀ w', Ping w' ∈ d ↔ w' ∈ l ∧ alive st w' = true) ∧
       (∀ w', Terminate w' ∈ d ↔ w' ∈ l ∧ alive st w' = false).
Proof.
  intros Hnd. revert st. induction Hnd as [|w l Hw Hnd IH]; intros st; simpl.
  - exists []. split; [by rewrite app_nil_r|].
    split; intros w'; split; try by intros ?%elem_of_nil.
    all: by intros [?%elem_of_nil _].
  - destruct (sweep_one_sent st w) as (d1 & E1 & HP1 & HT1).
    destruct (IH (sweep_one st w)) as (d2 & E2 & HP2 & HT2).
    exists (d1 ++ d2). split; [by rewrite E2, E1, app_assoc|].
    split; intros w'; rewrite elem_of_app, elem_of_cons.
    + rewrite HP1, HP2. split.
      * intros [[-> ?]|[Hin Ha]]; [by split; [left|]|].
        split; [by right|]. rewrite <- Ha. symmetry.
        apply sweep_one_alive_ne. by intros ->.
      * intros [[->|Hin] Ha]; [by left|]. right. split; [done|].
        rewrite <- Ha. apply sweep_one_alive_ne. by intros ->.
    + rewrite HT1, HT2. split.
      * intros [[-> ?]|[Hin Ha]]; [by split; [left|]|].
        split; [by right|]. rewrite <- Ha. symmetry.
        apply sweep_one_alive_ne. by intros ->.
      * intros [[->|Hin] Ha]; [by left|]. right. split; [done|].
        rewrite <- Ha. apply sweep_one_alive_ne. by intros ->.
Qed.

Lemma sweep_log_spec st :
  NoDup (clients st) →
  sent (pingInterval st) = sent st ++ sweep_log st ∧
  (∀ w, Ping w ∈ sweep_log st ↔ w ∈ clients st ∧ alive st w = true) ∧
  (∀ w, Terminate w ∈ sweep_log st ↔ w ∈ clients st ∧ alive st w = false).
Proof.
  intros Hnd. destruct (sweep_sent (clients st) st Hnd) as (d & E & HP & HT).
  assert (sweep_log st = d) as ->; [|done].
  unfold sweep_log, pingInterval. rewrite E. apply drop_app_length.
Qed.

(** What a teardown leaves behind under the code of the connection. *)
Lemma handleDisconnect_effect st ws c :
  sessionCode_of st ws = Some c → c ≠ "" →
  waitingHosts (handleDisconnect st ws) !! c ≠ Some ws ∧
  (waitingHosts st !! c ≠ Some ws → sessions (handleDisconnect st ws) !! c = None).
Proof.
  intros Hc Hne. unfold handleDisconnect. rewrite Hc.
  rewrite bool_decide_eq_false_2 by done.
  case_bool_decide as Hw; simpl.
  - rewrite lookup_delete_eq. done.
  - destruct (sessions st !! c) as [s|] eqn:Hs; simpl.
    + split; [by destruct (is_open st _)|]. intros _. apply lookup_delete_eq.
    + done.
Qed.

Lemma sweep_one_registries st w :
  waitingHosts (sweep_one st w) =
    (if alive st w then waitingHosts st else waitingHosts (handleDisconnect st w)) ∧
  sessions (sweep_one st w) =
    (if alive st w then sessions st else sessions (handleDisconnect st w)).
Proof. unfold sweep_one. by destruct (alive st w). Qed.

(** The sweep runs the teardown of every connection it finds dead. *)
Lemma sweep_teardown l st ws c :
  NoDup l → ws ∈ l → alive st ws = false →
  sessionCode_of st ws = Some c → c ≠ "" →
  waitingHosts (foldl sweep_one st l) !! c ≠ Some ws ∧
  (waitingHosts st !! c ≠ Some ws → sessions (foldl sweep_one st l) !! c = None).
Proof.
  intros Hnd Hin Ha Hc Hne.
  apply list_elem_of_split in Hin as (l1 & l2 & ->).
  apply NoDup_app in Hnd as (Hnd1 & Hfresh & _).
  rewrite foldl_app. simpl.
  set (st1 := foldl sweep_one st l1).
  assert (no_new_entries st st1) as [Hw1 Hs1] by apply sweep_no_new.
  assert (sessionCode_of st1 ws = Some c) as Hc1.
  { unfold st1. destruct (sweep_binding l1 st ws) as [_ E]. by rewrite E. }
  assert (alive st1 ws = false) as Ha1.
  { unfold alive, st1. rewrite sweep_conns by done.
    rewrite decide_False; [exact Ha|]. intros Hin. apply (Hfresh _ Hin). by left. }
  destruct (handleDisconnect_effect st1 ws c Hc1 Hne) as [Hw2 Hs2].
  destruct (sweep_one_registries st1 ws) as [Ew Es]. rewrite Ha1 in Ew, Es.
  destruct (sweep_no_new l2 (sweep_one st1 ws)) as [Hw3 Hs3].
  split.
  - intros Hx. apply Hw2. rewrite <- Ew. eapply lookup_weaken; eauto.
  - intros Hnw. eapply lookup_weaken_None; [|exact Hs3]. rewrite Es.
    apply Hs2. intros Hx. apply Hnw. eapply lookup_weaken; eauto.
Qed.




(** ** Reachable states *)

Lemma handleMessage_conns st w m :
  conns (handleMessage st w m) = conns st ∨
  ∃ c r, conns (handleMessage st w m) = alter (bind_conn c r m) w (conns st).
Proof.
  destruct (handleMessage_cases st w m)
    as [[_ ->]|[[_ ->]|[[_ ->]|[[_ ->]|[_ ->]]]]]; try by left.
  - destruct (registerHost_cases st w m)
      as [->|[[e ->]|(c & _ & _ & _ & _ & _ & ->)]]; [by left|by left|].
    right. by exists c, host_role.
  - destruct (connectToHost_cases st w m) as [->|(c & h & Hc & Hw & Ho)];
      [by left|].
    destruct (connectToHost_success st w m c h Hc Hw Ho) as (_ & Ecs & _).
    right. by exists c, client_role.
  - left. apply relayData_conns.
Qed.

Lemma handleMessage_clients st w m : clients (handleMessage st w m) = clients st.
Proof.
  destruct (handleMessage_cases st w m)
    as [[_ ->]|[[_ ->]|[[_ ->]|[[_ ->]|[_ ->]]]]]; try done.
  - by destruct (registerHost_cases st w m)
      as [->|[[e ->]|(c & _ & _ & _ & _ & _ & ->)]].
  - destruct (connectToHost_cases st w m) as [->|(c & h & Hc & Hw & Ho)];
      [done|].
    by destruct (connectToHost_success st w m c h Hc Hw Ho) as (-> & _).
  - unfold relayData. destruct (sessionCode_of st w ≫= _); [|done].
    by destruct (is_open st _).
Qed.

Lemma handleMessage_dom st w m :
  dom (conns (handleMessage st w m)) = dom (conns st).
Proof.
  destruct (handleMessage_conns st w m) as [->|(c & r & ->)]; [done|].
  apply dom_alter_L.
Qed.

Lemma handleMessage_alive st w m ws :
  alive (handleMessage st w m) ws = alive st ws.
Proof.
  unfold alive.
  destruct (handleMessage_conns st w m) as [->|(c & r & ->)]; [done|].
  alter_at ws w. by destruct (conns st !! w).
Qed.

Lemma sweep_clients l st : clients (foldl sweep_one st l) = clients st.
Proof.
  revert st. induction l as [|w l IH]; intros st; simpl; [done|].
  rewrite IH. unfold sweep_one. destruct (negb (alive st w)); simpl; [|done].
  apply handleDisconnect_clients.
Qed.

Lemma sweep_dom l st : dom (conns (foldl sweep_one st l)) = dom (conns st).
Proof.
  revert st. induction l as [|w l IH]; intros st; simpl; [done|].
  rewrite IH, sweep_one_conns. apply dom_alter_L.
Qed.

Lemma step_clients_wf st ev : clients_wf st → clients_wf (step st ev).
Proof.
  intros [Hnd Hin]. unfold clients_wf.
  setoid_rewrite <- elem_of_dom. setoid_rewrite <- elem_of_dom in Hin.
  destruct ev as [|w|w f|w|w|]; simpl.
  - split.
    + apply NoDup_app. split_and!; [done| |apply NoDup_singleton].
      intros x Hx Hx'. apply list_elem_of_singleton in Hx' as ->.
      apply Hin in Hx. by apply is_fresh in Hx.
    + intros x. rewrite dom_insert_L, elem_of_app, list_elem_of_singleton.
      intros [?| ->]; set_solver.
  - rewrite dom_alter_L. done.
  - case_bool_decide; [|done]. destruct f as [| |m]; try done. simpl.
    by rewrite handleMessage_clients, handleMessage_dom.
  - rewrite dom_alter_L. done.
  - rewrite on_close_clients, on_close_conns.
    rewrite dom_alter_L. split; [by apply NoDup_filter|].
    intros x [_ ?]%list_elem_of_filter. auto.
  - unfold pingInterval. by rewrite sweep_clients, sweep_dom.
Qed.

Lemma run_clients_wf evs st : clients_wf st → clients_wf (run st evs).
Proof.
  revert st. induction evs as [|ev evs IH]; intros st H; simpl; [done|].
  apply IH. by apply step_clients_wf.
Qed.

Lemma reachable_clients_wf st : reachable st → clients_wf st.
Proof.
  intros [evs ->]. apply run_clients_wf. split; [apply NoDup_nil_2|].
  by intros w ?%elem_of_nil.
Qed.



(** ** Timed traces *)



Lemma sweep_step_behaviour st ws :
  clients_wf st → ws ∈ clients st →
  (alive st ws = false →
     Terminate ws ∈ sweep_log st ∧ (Ping ws ∉ sweep_log st) ∧
     is_open (pingInterval st) ws = false ∧
     (∀ c, sessionCode_of st ws = Some c → c ≠ "" →
        waitingHosts (pingInterval st) !! c ≠ Some ws ∧
        (waitingHosts st !! c ≠ Some ws → sessions (pingInterval st) !! c = None))) ∧
  (alive st ws = true →
     Ping ws ∈ sweep_log st ∧ (Terminate ws ∉ sweep_log st) ∧
     alive (pingInterval st) ws = false ∧
     is_open (pingInterval st) ws = is_open st ws).
Proof.
  intros [Hnd Hex] Hin.
  destruct (sweep_log_spec st Hnd) as (_ & HP & HT).
  destruct (Hex ws Hin) as [x Hx].
  assert (conns (pingInterval st) !! ws = Some (swept x)) as Hx'.
  { unfold pingInterval. rewrite sweep_conns by done.
    rewrite decide_True by done. by rewrite Hx. }
  split; intros Ha.
  - split_and!.
    + by apply HT.
    + rewrite HP. intros [_ ?]. congruence.
    + unfold is_open. rewrite Hx'. unfold alive in Ha. rewrite Hx in Ha.
      apply bool_decide_eq_false_2. unfold swept. rewrite Ha. unfold closing.
      case_bool_decide as Hc; simpl; congruence.
    + intros c Hc Hne. by apply sweep_teardown.
  - split_and!.
    + by apply HP.
    + rewrite HT. intros [_ ?]. congruence.
    + unfold alive in *. rewrite Hx'. rewrite Hx in Ha. unfold swept.
      by rewrite Ha.
    + unfold is_open, alive in *. rewrite Hx', Hx. rewrite Hx in Ha.
      unfold swept. by rewrite Ha.
Qed.




(** ** Agreement with the other versions *)

Lemma handleRelay_relayData st ws m :
  ServerJs.handleRelay st ws m = relayData st ws m.
Proof. reflexivity. Qed.

(** On a message whose names can be printed the two registrations differ
    in the text of the code-in-use reply. *)
Lemma handleRegisterHost_registerHost st ws m :
  prints (device_name m) = true → prints (device_id m) = true →
  ServerJs.handleRegisterHost st ws m = registerHost st ws m ∨
  (registerHost st ws m = send ws (error "Código en uso") st ∧
   ServerJs.handleRegisterHost st ws m = send ws (error "Código ya en uso") st).
Proof.
  intros Hn Hi. unfold ServerJs.handleRegisterHost, registerHost.
  rewrite Hn, Hi. simpl.
  destruct (code m) as [c|]; [|by left].
  destruct (invalid_code c); [by left|].
  case_bool_decide; [by right|by left].
Qed.

(** The inline pairing differs in the text of the failure reply. *)
Lemma connect_to_host_branch_connectToHost st ws m :
  ServerJs.connect_to_host_branch st ws m = connectToHost st ws m ∨
  (connectToHost st ws m = send ws (connection_failed host_not_found) st ∧
   ServerJs.connect_to_host_branch st ws m =
     send ws (connection_failed "No se encontró PC con ese código") st).
Proof.
  unfold ServerJs.connect_to_host_branch, connectToHost.
  destruct (code m) as [c|]; [|by right].
  destruct (waiting_host st (Some c)) as [h|]; [|by right].
  destruct (negb (is_open st h)); [by right|by left].
Qed.

(** Self-pairing in the inline version. *)
Lemma connect_to_host_branch_self_pairing st ws c m x :
  conns st !! ws = Some x → readyState x = OPEN →
  waitingHosts st !! c = Some ws → code m = Some c →
  ServerJs.connect_to_host_branch st ws m = connectToHost st ws m ∧
  sessions (ServerJs.connect_to_host_branch st ws m) !! c
    = Some {| host := ws; client := ws |}.
Proof.
  intros Hx Hopen Hw Hc.
  assert (is_open st ws = true) as Ho.
  { unfold is_open. rewrite Hx. by apply bool_decide_eq_true_2. }
  assert (ServerJs.connect_to_host_branch st ws m = connectToHost st ws m) as E.
  { unfold ServerJs.connect_to_host_branch, connectToHost, waiting_host.
    rewrite Hc. simpl. by rewrite Hw, Ho. }
  split; [done|]. rewrite E.
  destruct (connectToHost_success st ws m c ws Hc Hw Ho) as (_ & _ & _ & -> & _).
  apply lookup_insert_eq.
Qed.

(** The sweep of the inline version sets the same flags and ready states as
    [pingInterval] and leaves both registries alone. *)
Lemma sweep_inline_one_conns st w :
  conns (ServerJs.sweep_one st w) = alter swept w (conns st).
Proof.
  unfold ServerJs.sweep_one, alive. apply map_eq. intros i.
  destruct (decide (i = w)) as [->|].
  2:{ destruct (conns st !! w) as [x|]; [destruct (isAlive x)|]; simpl;
        by rewrite !lookup_alter_ne. }
  destruct (conns st !! w) as [x|] eqn:Hx.
  - destruct (isAlive x) eqn:Ha; simpl; rewrite !lookup_alter_eq, Hx; simpl;
      unfold swept; by rewrite Ha.
  - simpl. by rewrite !lookup_alter_eq, Hx.
Qed.

Lemma sweep_inline_fold l st st' :
  conns st' = conns st →
  conns (foldl ServerJs.sweep_one st' l) = conns (foldl sweep_one st l) ∧
  waitingHosts (foldl ServerJs.sweep_one st' l) = waitingHosts st' ∧
  sessions (foldl ServerJs.sweep_one st' l) = sessions st'.
Proof.
  revert st st'. induction l as [|w l IH]; intros st st' E; simpl; [done|].
  destruct (IH (sweep_one st w) (ServerJs.sweep_one st' w)) as (-> & -> & ->).
  { by rewrite sweep_inline_one_conns, sweep_one_conns, E. }
  split_and!; try done; unfold ServerJs.sweep_one; by destruct (negb (alive st' w)).
Qed.

Lemma sweep_inline_pingInterval st :
  conns (ServerJs.sweep st) = conns (pingInterval st) ∧
  waitingHosts (ServerJs.sweep st) = waitingHosts st ∧
  sessions (ServerJs.sweep st) = sessions st.
Proof. by apply sweep_inline_fold. Qed.

(** * Further properties of the server *)

(** ** What a message does to the registries *)

Lemma registerHost_success st ws m c :
  prints (device_name m) = true → prints (device_id m) = true →
  code m = Some c → String.length c = 9 → waitingHosts st !! c = None →
  registerHost st ws m =
    send ws (registered c)
      (set_waitingHosts (insert c ws)
         (set_conns (alter (bind_conn c host_role m) ws) st)).
Proof.
  intros Hn Hi Hc Hlen Hw. unfold registerHost. rewrite Hn, Hi, Hc. simpl.
  apply invalid_code_false in Hlen. rewrite Hlen.
  by rewrite bool_decide_eq_false_2 by (rewrite Hw; by intros [? ?]).
Qed.

Lemma handleMessage_registries st ws m :
  (waitingHosts (handleMessage st ws m) = waitingHosts st ∧
   sessions (handleMessage st ws m) = sessions st) ∨
  (∃ c, type m = Some "register_host" ∧ code m = Some c ∧
        String.length c = 9 ∧ waitingHosts st !! c = None ∧
        waitingHosts (handleMessage st ws m) = <[c := ws]> (waitingHosts st) ∧
        sessions (handleMessage st ws m) = sessions st) ∨
  (∃ c h, type m = Some "connect_to_host" ∧ code m = Some c ∧
        waitingHosts st !! c = Some h ∧ is_open st h = true ∧
        waitingHosts (handleMessage st ws m) = delete c (waitingHosts st) ∧
        sessions (handleMessage st ws m)
          = <[c := {| host := h; client := ws |}]> (sessions st)).
Proof.
  destruct (handleMessage_cases st ws m)
    as [[Ht ->]|[[Ht ->]|[[_ ->]|[[_ ->]|[_ ->]]]]]; try by left.
  - destruct (registerHost_cases st ws m)
      as [->|[[e ->]|(c & Hc & Hlen & Hw & _ & _ & ->)]]; [by left|by left|].
    right; left. by exists c.
  - destruct (connectToHost_cases st ws m) as [->|(c & h & Hc & Hw & Ho)];
      [by left|].
    destruct (connectToHost_success st ws m c h Hc Hw Ho) as (_ & _ & Ew & Es & _).
    right; right. by exists c, h.
  - left. apply relayData_registries.
Qed.

(** X1: a message changes the registries in one of two ways only.  A
    [register_host] with a nine-character code that is not waiting adds the
    sender under that code to [waitingHosts]; a [connect_to_host] for a code
    under which an open host waits deletes the code from [waitingHosts] and
    stores the pair under it in [sessions].  Every other message, and every
    request that is turned down, leaves both maps as they are. *)
Theorem message_registry_effect st ws m :
  (waitingHosts (handleMessage st ws m) = waitingHosts st ∧
   sessions (handleMessage st ws m) = sessions st) ∨
  (∃ c, type m = Some "register_host" ∧ code m = Some c ∧
        String.length c = 9 ∧ waitingHosts st !! c = None ∧
        waitingHosts (handleMessage st ws m) = <[c := ws]> (waitingHosts st) ∧
        sessions (handleMessage st ws m) = sessions st) ∨
  (∃ c h, type m = Some "connect_to_host" ∧ code m = Some c ∧
        waitingHosts st !! c = Some h ∧ is_open st h = true ∧
        waitingHosts (handleMessage st ws m) = delete c (waitingHosts st) ∧
        sessions (handleMessage st ws m)
          = <[c := {| host := h; client := ws |}]> (sessions st)).
Proof. apply handleMessage_registries. Qed.

(** X2: the health check.  A request for [/] or [/health] is answered 200
    with the JSON report whose [hosts] is the size of [waitingHosts] and
    whose [sessions] is the size of [sessions]; a request for any other URL
    is answered 404 with the text [Not Found].  The counts move with the
    messages: after a message they are the same as before, or one waiting
    host more (a registration), or one waiting host less and the same or
    one more session (a pairing; the same when the code already had a
    session, which the pairing replaces). *)
Theorem health_counts_after_message st ws m url :
  let report s :=
    {| statusCode := 200; contentType := Some "application/json";
       body := status_report "ok" "Easy Connection Relay"
                 (size (waitingHosts s)) (size (sessions s)) |} in
  let h := size (waitingHosts st) in
  let a := size (sessions st) in
  let h' := size (waitingHosts (handleMessage st ws m)) in
  let a' := size (sessions (handleMessage st ws m)) in
  http_request st "/" = report st ∧
  http_request st "/health" = report st ∧
  (url ≠ "/" → url ≠ "/health" →
     http_request st url =
       {| statusCode := 404; contentType := None; body := text "Not Found" |}) ∧
  ((h' = h ∧ a' = a) ∨ (h' = S h ∧ a' = a) ∨
   (h = S h' ∧ (a' = a ∨ a' = S a))).
Proof.
  intros report h a h' a'. split; [done|]. split; [done|]. split.
  { intros H1 H2. unfold http_request.
    by rewrite !bool_decide_eq_false_2 by done. }
  subst h a h' a'.
  destruct (handleMessage_registries st ws m)
    as [[-> ->]|[(c & _ & _ & _ & Hw & -> & ->)|(c & h & _ & _ & Hw & _ & -> & ->)]].
  - by left.
  - right; left. split; [|done]. by apply map_size_insert_None.
  - right; right. split.
    + rewrite map_size_delete_Some by by eexists.
      assert (size (waitingHosts st) ≠ 0); [|lia].
      intros H0. apply map_size_empty_inv in H0. rewrite H0 in Hw.
      by rewrite lookup_empty in Hw.
    + rewrite map_size_insert. destruct (sessions st !! c); simpl; auto.
Qed.

(** With one host waiting, [/] reports one host and no session, and
    [/status] is not found. *)
Lemma health_counts_after_message_witness :
  let st := run initial host_and_guest in
  http_request st "/" =
    {| statusCode := 200; contentType := Some "application/json";
       body := status_report "ok" "Easy Connection Relay" 1 0 |} ∧
  http_request st "/status" =
    {| statusCode := 404; contentType := None; body := text "Not Found" |}.
Proof.
  intros st.
  pose proof (health_counts_after_message st 1
                (message_of "connect_to_host" ABC123XYZ bob) "/status")
    as (H1 & _ & H3 & _).
  split; [exact H1|]. apply H3; discriminate.
Defined.

(** X3: no message closes a connection or touches its liveness.  Whatever
    the message and whoever sends it, [wss.clients], and the [isAlive] flag
    and the ready state of every connection, are the same afterwards: a
    request that is turned down costs the sender nothing but the reply. *)
Theorem message_keeps_connections_open st ws m w :
  clients (handleMessage st ws m) = clients st ∧
  dom (conns (handleMessage st ws m)) = dom (conns st) ∧
  alive (handleMessage st ws m) w = alive st w ∧
  is_open (handleMessage st ws m) w = is_open st w.
Proof.
  split_and!.
  - apply handleMessage_clients.
  - apply handleMessage_dom.
  - apply handleMessage_alive.
  - unfold is_open.
    destruct (handleMessage_conns st ws m) as [->|(c & r & ->)]; [done|].
    alter_at w ws. by destruct (conns st !! ws).
Qed.

(** ** How the operations compose *)

Lemma length9_nonempty c : String.length c = 9 → c ≠ "".
Proof. by intros H ->. Qed.

(** X4: a code that waits cannot be registered twice.  For two
    registrations whose device ids and names can be printed: after a
    successful registration of [c] by [ws1], a registration of [c] by any
    connection, [ws1] included, is answered [error{Código en uso}] and
    changes nothing: the waiting host under [c] is still [ws1]. *)
Theorem second_registration_is_rejected st ws1 ws2 m1 m2 c :
  prints (device_name m1) = true → prints (device_id m1) = true →
  prints (device_name m2) = true → prints (device_id m2) = true →
  code m1 = Some c → code m2 = Some c →
  String.length c = 9 → waitingHosts st !! c = None →
  registerHost (registerHost st ws1 m1) ws2 m2 =
    send ws2 (error "Código en uso") (registerHost st ws1 m1) ∧
  waitingHosts (registerHost (registerHost st ws1 m1) ws2 m2) !! c = Some ws1.
Proof.
  intros Hn1 Hi1 Hn2 Hi2 Hc1 Hc2 Hlen Hw.
  rewrite (registerHost_success st ws1 m1 c Hn1 Hi1 Hc1 Hlen Hw).
  assert (∀ st', waitingHosts st' !! c = Some ws1 →
            registerHost st' ws2 m2 = send ws2 (error "Código en uso") st') as H.
  { intros st' Hst'. unfold registerHost. rewrite Hn2, Hi2, Hc2. simpl.
    apply invalid_code_false in Hlen. rewrite Hlen.
    rewrite bool_decide_eq_true_2; [done|]. by eexists. }
  rewrite H by (simpl; apply lookup_insert_eq).
  split; [done|]. simpl. apply lookup_insert_eq.
Qed.

(** A second host is turned away while the first one waits. *)
Lemma second_registration_is_rejected_witness :
  let st := run initial two_connections in
  let m1 := message_of "register_host" ABC123XYZ alice in
  let m2 := message_of "register_host" ABC123XYZ bob in
  waitingHosts (registerHost (registerHost st 0 m1) 1 m2) !! ABC123XYZ = Some 0.
Proof.
  intros st m1 m2.
  refine (proj2 (second_registration_is_rejected st 0 1 m1 m2 ABC123XYZ
                   _ _ _ _ _ _ _ _));
    vm_compute; reflexivity.
Defined.

(** X5: registering and closing is a round trip on the registries.  When a
    connection registers a free code, with a device id and name that can be
    printed, and then closes, [waitingHosts] and [sessions] are what they
    were before the registration, nothing but the [registered] reply has
    been sent, and the code can be registered again by any such message. *)
Theorem register_then_close_frees_the_code st ws m c x :
  prints (device_name m) = true → prints (device_id m) = true →
  conns st !! ws = Some x →
  code m = Some c → String.length c = 9 → waitingHosts st !! c = None →
  let st2 := on_close (registerHost st ws m) ws in
  waitingHosts st2 = waitingHosts st ∧
  sessions st2 = sessions st ∧
  sent st2 = sent st ++ [Send ws (registered c)] ∧
  (∀ ws' m', prints (device_name m') = true → prints (device_id m') = true →
     code m' = Some c →
     waitingHosts (registerHost st2 ws' m') !! c = Some ws').
Proof.
  intros Hn Hi Hx Hc Hlen Hw st2.
  assert (st2 = set_waitingHosts (delete c)
                  (set_clients (filter (λ y, y ≠ ws))
                     (set_conns (alter (set_readyState CLOSED) ws)
                        (registerHost st ws m)))) as E.
  { unfold st2, on_close, closed, handleDisconnect.
    rewrite (registerHost_success st ws m c Hn Hi Hc Hlen Hw).
    unfold deviceName_of, sessionCode_of. simpl.
    rewrite !lookup_alter_eq, Hx. simpl. rewrite Hn. simpl.
    rewrite bool_decide_eq_false_2 by by apply length9_nonempty.
    by rewrite lookup_insert_eq, bool_decide_eq_true_2. }
  rewrite (registerHost_success st ws m c Hn Hi Hc Hlen Hw) in E.
  assert (waitingHosts st2 = waitingHosts st) as Hw2.
  { rewrite E. simpl. by apply delete_insert_id. }
  split_and!; try by rewrite E.
  - done.
  - intros ws' m' Hn' Hi' Hc'.
    rewrite (registerHost_success st2 ws' m' c Hn' Hi' Hc' Hlen) by by rewrite Hw2.
    simpl. apply lookup_insert_eq.
Qed.

(** A lone host registers and closes. *)
Lemma register_then_close_frees_the_code_witness :
  let st := run initial one_connection in
  let m := message_of "register_host" ABC123XYZ alice in
  waitingHosts (on_close (registerHost st 0 m) 0) = waitingHosts st.
Proof.
  intros st m.
  refine (proj1 (register_then_close_frees_the_code st 0 m ABC123XYZ new_conn
                   _ _ _ _ _ _));
    vm_compute; reflexivity.
Defined.

Lemma connect_fails_without_host st ws m :
  (∀ c, code m = Some c → waitingHosts st !! c = None) →
  connectToHost st ws m = send ws (connection_failed host_not_found) st.
Proof.
  intros H. apply connectToHost_failure. left. unfold waiting_host.
  destruct (code m) as [c|]; [|done]. simpl. by apply H.
Qed.

(** X6: the client of a fresh pairing closes.  For a client that paired
    under a device name that can be printed: the host is sent exactly one
    [peer_disconnected], the session is gone, the code waits no more, and a
    later [connect_to_host] for the code is answered [connection_failed]. *)
Theorem pairing_then_client_close st h cl mc c xc :
  prints (device_name mc) = true →
  h ≠ cl → conns st !! cl = Some xc →
  waitingHosts st !! c = Some h → is_open st h = true →
  c ≠ "" → code mc = Some c →
  let st1 := connectToHost st cl mc in
  let st2 := on_close st1 cl in
  waitingHosts st2 = delete c (waitingHosts st) ∧
  sessions st2 = delete c (sessions st) ∧
  sent st2 = sent st1 ++ [Send h peer_disconnected] ∧
  clients st2 = filter (λ y, y ≠ cl) (clients st) ∧
  (∀ ws' m', code m' = Some c →
     connectToHost st2 ws' m' = send ws' (connection_failed host_not_found) st2).
Proof.
  intros Hn Hne Hxc Hw Ho Hc Hmc st1 st2.
  destruct (connectToHost_success st cl mc c h Hmc Hw Ho)
    as (Ecl & Ecs & Ewh & Ess & _).
  fold st1 in Ecl, Ecs, Ewh, Ess.
  set (st1' := closed st1 cl).
  assert (prints (deviceName_of st1' cl) = true) as Hp.
  { unfold deviceName_of, st1'. simpl. by rewrite Ecs, !lookup_alter_eq, Hxc. }
  assert (sessionCode_of st1' cl = Some c) as Hsc.
  { unfold sessionCode_of, st1'. simpl.
    by rewrite Ecs, !lookup_alter_eq, Hxc. }
  assert (role_of st1' cl = Some client_role) as Hr.
  { unfold role_of, st1'. simpl. by rewrite Ecs, !lookup_alter_eq, Hxc. }
  assert (is_open st1' h = true) as Ho'.
  { unfold is_open, st1' in *. simpl.
    by rewrite Ecs, !lookup_alter_ne by done. }
  assert (st2 = set_sessions (delete c) (send h peer_disconnected st1')) as E.
  { unfold st2, on_close. fold st1'. rewrite Hp. simpl.
    unfold handleDisconnect. rewrite Hsc.
    rewrite bool_decide_eq_false_2 by done.
    assert (waitingHosts st1' = delete c (waitingHosts st)) as -> by done.
    rewrite lookup_delete_eq, bool_decide_eq_false_2 by done.
    assert (sessions st1' = <[c := {| host := h; client := cl |}]> (sessions st))
      as -> by done.
    rewrite lookup_insert_eq. unfold other_side. rewrite Hr.
    rewrite bool_decide_eq_false_2 by done. simpl. by rewrite Ho'. }
  assert (waitingHosts st2 = delete c (waitingHosts st)) as Hw2.
  { rewrite E. simpl. done. }
  split_and!.
  - done.
  - rewrite E. simpl. rewrite Ess. apply delete_insert_eq.
  - by rewrite E.
  - rewrite E. simpl. by rewrite Ecl.
  - intros ws' m' Hc'. apply connect_fails_without_host.
    intros c' Hc''. rewrite Hc' in Hc''. injection Hc'' as <-.
    rewrite Hw2. apply lookup_delete_eq.
Qed.

(** The client of the pairing of [ABC123XYZ] closes. *)
Lemma pairing_then_client_close_witness :
  let st := run initial host_and_guest in
  let mc := message_of "connect_to_host" ABC123XYZ bob in
  sent (on_close (connectToHost st 1 mc) 1) =
    sent (connectToHost st 1 mc) ++ [Send 0 peer_disconnected].
Proof.
  intros st mc.
  refine (proj1 (proj2 (proj2
            (pairing_then_client_close st 0 1 mc ABC123XYZ new_conn
               _ _ _ _ _ _ _))));
    try (vm_compute; reflexivity); discriminate.
Defined.

(** X7: the host of a fresh pairing closes.  For a host that registered
    [c] (its [sessionCode] is [c], its role host and its device name one
    that can be printed, as [registerHost] leaves it: see
    [reachable_host_names_print]) and a client whose socket is open, the
    client is sent exactly one [peer_disconnected], the session is gone, and
    a later [connect_to_host] for the code is answered
    [connection_failed]. *)
Theorem pairing_then_host_close st h cl mc c :
  prints (deviceName_of st h) = true →
  h ≠ cl →
  waitingHosts st !! c = Some h → is_open st h = true →
  sessionCode_of st h = Some c → role_of st h = Some host_role →
  is_open st cl = true →
  c ≠ "" → code mc = Some c →
  let st1 := connectToHost st cl mc in
  let st2 := on_close st1 h in
  waitingHosts st2 = delete c (waitingHosts st) ∧
  sessions st2 = delete c (sessions st) ∧
  sent st2 = sent st1 ++ [Send cl peer_disconnected] ∧
  (∀ ws' m', code m' = Some c →
     connectToHost st2 ws' m' = send ws' (connection_failed host_not_found) st2).
Proof.
  intros Hn Hne Hw Ho Hsc Hr Hocl Hc Hmc st1 st2.
  destruct (connectToHost_success st cl mc c h Hmc Hw Ho)
    as (Ecl & Ecs & Ewh & Ess & _).
  fold st1 in Ecl, Ecs, Ewh, Ess.
  set (st1' := closed st1 h).
  assert (∃ xh, conns st !! h = Some xh) as [xh Hxh].
  { unfold is_open in Ho. destruct (conns st !! h); [by eexists|done]. }
  assert (conns st1' !! h = Some (set_readyState CLOSED xh)) as Hxh'.
  { unfold st1'. simpl.
    by rewrite Ecs, lookup_alter_eq, lookup_alter_ne, Hxh by done. }
  assert (sessionCode_of st1' h = Some c) as Hsc'.
  { unfold sessionCode_of in *. rewrite Hxh'. by rewrite Hxh in Hsc. }
  assert (role_of st1' h = Some host_role) as Hr'.
  { unfold role_of in *. rewrite Hxh'. by rewrite Hxh in Hr. }
  assert (is_open st1' cl = true) as Ho'.
  { unfold is_open, st1' in *. simpl.
    rewrite Ecs, lookup_alter_ne, lookup_alter_eq by done.
    by destruct (conns st !! cl). }
  assert (prints (deviceName_of st1' h) = true) as Hp.
  { unfold deviceName_of in *. rewrite Hxh'. by rewrite Hxh in Hn. }
  assert (st2 = set_sessions (delete c) (send cl peer_disconnected st1')) as E.
  { unfold st2, on_close. fold st1'. rewrite Hp. simpl.
    unfold handleDisconnect. rewrite Hsc'.
    rewrite bool_decide_eq_false_2 by done.
    assert (waitingHosts st1' = delete c (waitingHosts st)) as -> by done.
    rewrite lookup_delete_eq, bool_decide_eq_false_2 by done.
    assert (sessions st1' = <[c := {| host := h; client := cl |}]> (sessions st))
      as -> by done.
    rewrite lookup_insert_eq. unfold other_side. rewrite Hr'.
    rewrite bool_decide_eq_true_2 by done. simpl. by rewrite Ho'. }
  assert (waitingHosts st2 = delete c (waitingHosts st)) as Hw2.
  { rewrite E. simpl. done. }
  split_and!.
  - done.
  - rewrite E. simpl. rewrite Ess. apply delete_insert_eq.
  - by rewrite E.
  - intros ws' m' Hc'. apply connect_fails_without_host.
    intros c' Hc''. rewrite Hc' in Hc''. injection Hc'' as <-.
    rewrite Hw2. apply lookup_delete_eq.
Qed.

(** The host of the pairing of [ABC123XYZ] closes. *)
Lemma pairing_then_host_close_witness :
  let st := run initial host_and_guest in
  let mc := message_of "connect_to_host" ABC123XYZ bob in
  sent (on_close (connectToHost st 1 mc) 0) =
    sent (connectToHost st 1 mc) ++ [Send 1 peer_disconnected].
Proof.
  intros st mc.
  refine (proj1 (proj2 (proj2
            (pairing_then_host_close st 0 1 mc ABC123XYZ _ _ _ _ _ _ _ _ _))));
    try (vm_compute; reflexivity); discriminate.
Defined.

(** X8: the relay of the client reaches the host.  While the session under
    [c] pairs [h] with [cl] and [cl] carries the code [c] and the role
    client, a relay message of [cl] sends exactly one frame,
    [relayed{from: client}] with the payload, to [h] if the socket of [h] is
    open, and nothing otherwise. *)
Theorem relay_from_client_reaches_host st h cl c m :
  sessions st !! c = Some {| host := h; client := cl |} →
  sessionCode_of st cl = Some c →
  role_of st cl = Some client_role →
  type m = Some "relay" →
  (is_open st h = true →
     handleMessage st cl m = send h (relayed (Some client_role) (data m)) st) ∧
  (is_open st h = false → handleMessage st cl m = st).
Proof.
  intros Hs Hc Hr Ht.
  assert (handleMessage st cl m = relayData st cl m) as ->.
  { unfold handleMessage. by rewrite Ht. }
  unfold relayData. rewrite Hc. simpl. rewrite Hs.
  unfold other_side. rewrite Hr. rewrite bool_decide_eq_false_2 by done. simpl.
  split; intros ->; done.
Qed.

(** After the pairing the client's payload reaches the host. *)
Lemma relay_from_client_reaches_host_witness :
  let st := run initial pairing in
  let m := {| type := Some "relay"; code := None; device_id := None;
              device_name := None; data := payload_x1 |} in
  handleMessage st 1 m = send 0 (relayed (Some client_role) payload_x1) st.
Proof.
  intros st m.
  refine (proj1 (relay_from_client_reaches_host st 0 1 ABC123XYZ m _ _ _ _) _);
    vm_compute; reflexivity.
Defined.

(** ** Teardown is local *)

(** X9: teardown touches nothing but the entries under the connection's own
    code.  [handleDisconnect] changes no [ws] object and not [wss.clients];
    the entries of both registries under every other code are what they
    were; it sends at most one frame, a [peer_disconnected]; and for a
    connection whose [sessionCode] is null it does nothing at all. *)
Theorem teardown_is_local st ws :
  conns (handleDisconnect st ws) = conns st ∧
  clients (handleDisconnect st ws) = clients st ∧
  (∀ c', sessionCode_of st ws ≠ Some c' →
     waitingHosts (handleDisconnect st ws) !! c' = waitingHosts st !! c' ∧
     sessions (handleDisconnect st ws) !! c' = sessions st !! c') ∧
  (sent (handleDisconnect st ws) = sent st ∨
   ∃ o, sent (handleDisconnect st ws) = sent st ++ [Send o peer_disconnected]) ∧
  (sessionCode_of st ws = None → handleDisconnect st ws = st).
Proof.
  split; [apply handleDisconnect_conns|].
  split; [apply handleDisconnect_clients|].
  unfold handleDisconnect.
  destruct (sessionCode_of st ws) as [c|]; [|split_and!; auto].
  case_bool_decide; [split_and!; auto; done|].
  case_bool_decide.
  - split_and!; [|by left|done]. intros c' Hc'. simpl.
    rewrite lookup_delete_ne by congruence. done.
  - destruct (sessions st !! c) as [s|]; [|split_and!; auto; done].
    split_and!; [| |done].
    + intros c' Hc'. simpl. rewrite lookup_delete_ne by congruence.
      by destruct (is_open st _).
    + simpl. destruct (is_open st _); [right; by eexists|by left].
Qed.

(** The close of the client of [ABC123XYZ] leaves the waiting host of
    [QRS456TUV] alone. *)
Lemma teardown_is_local_witness :
  let st := run initial (pairing ++ [ Connection;
              Incoming 2 (register_host QRS456TUV carol carol) ]) in
  waitingHosts (handleDisconnect st 1) !! QRS456TUV = Some 2.
Proof.
  intros st.
  assert (sessionCode_of st 1 ≠ Some QRS456TUV) as H by (vm_compute; discriminate).
  rewrite (proj1 (proj1 (proj2 (proj2 (teardown_is_local st 1))) QRS456TUV H)).
  vm_compute. reflexivity.
Defined.

(** ** Invariants of the reachable states *)

Lemma handleMessage_effect st ws m :
  (conns (handleMessage st ws m) = conns st ∧
   waitingHosts (handleMessage st ws m) = waitingHosts st ∧
   sessions (handleMessage st ws m) = sessions st) ∨
  (∃ c, String.length c = 9 ∧
        conns (handleMessage st ws m) = alter (bind_conn c host_role m) ws (conns st) ∧
        waitingHosts (handleMessage st ws m) = <[c := ws]> (waitingHosts st) ∧
        sessions (handleMessage st ws m) = sessions st) ∨
  (∃ c h, waitingHosts st !! c = Some h ∧
        conns (handleMessage st ws m) = alter (bind_conn c client_role m) ws (conns st) ∧
        waitingHosts (handleMessage st ws m) = delete c (waitingHosts st) ∧
        sessions (handleMessage st ws m)
          = <[c := {| host := h; client := ws |}]> (sessions st)).
Proof.
  destruct (handleMessage_cases st ws m)
    as [[Ht ->]|[[Ht ->]|[[_ ->]|[[_ ->]|[_ ->]]]]]; try by left.
  - destruct (registerHost_cases st ws m)
      as [->|[[e ->]|(c & Hc & Hlen & Hw & _ & _ & ->)]]; [by left|by left|].
    right; left. by exists c.
  - destruct (connectToHost_cases st ws m) as [->|(c & h & Hc & Hw & Ho)];
      [by left|].
    destruct (connectToHost_success st ws m c h Hc Hw Ho) as (_ & Ec & Ew & Es & _).
    right; right. by exists c, h.
  - left. split; [apply relayData_conns|apply relayData_registries].
Qed.

Lemma bound_conns st st' w :
  conns st' = conns st → bound st w → bound st' w.
Proof. unfold bound, sessionCode_of, role_of. by intros ->. Qed.

Lemma bound_alter_bind st st' c r m ws w :
  conns st' = alter (bind_conn c r m) ws (conns st) →
  bound st w → bound st' w.
Proof.
  unfold bound, sessionCode_of, role_of. intros -> [H1 H2].
  destruct (decide (w = ws)) as [->|]; [|by rewrite lookup_alter_ne].
  rewrite lookup_alter_eq. destruct (conns st !! ws); simpl in *; [|done].
  split; by eexists.
Qed.

Lemma bound_alter_bind_self st st' c r m ws :
  conns st' = alter (bind_conn c r m) ws (conns st) →
  is_Some (conns st !! ws) → bound st' ws.
Proof.
  unfold bound, sessionCode_of, role_of. intros -> [x Hx].
  rewrite lookup_alter_eq, Hx. simpl. split; by eexists.
Qed.

Lemma bound_same_binding st st' w :
  same_binding st st' → bound st w → bound st' w.
Proof. intros H [H1 H2]. destruct (H w) as [E1 E2]. split; congruence. Qed.

Lemma members_bound_shrink st st' :
  no_new_entries st st' → (∀ w, bound st w → bound st' w) →
  members_bound st → members_bound st'.
Proof.
  intros [Hw Hs] Hb [M1 M2]. split.
  - intros c w Hc. apply Hb. eapply M1. eapply lookup_weaken; eauto.
  - intros c s Hc. eapply lookup_weaken in Hc; [|exact Hs].
    destruct (M2 c s Hc). split; by apply Hb.
Qed.

Lemma valid_codes_shrink st st' :
  no_new_entries st st' → same_binding st st' →
  valid_codes st → valid_codes st'.
Proof.
  intros [Hw Hs] Hb (V1 & V2 & V3). split_and!.
  - intros c w Hc. eapply V1. eapply lookup_weaken; eauto.
  - intros c s Hc. eapply V2. eapply lookup_weaken; eauto.
  - intros w c Hc. apply (V3 w). destruct (Hb w) as [_ <-]. done.
Qed.

Lemma handleMessage_invariants st ws m :
  is_Some (conns st !! ws) →
  valid_codes st ∧ members_bound st →
  valid_codes (handleMessage st ws m) ∧ members_bound (handleMessage st ws m).
Proof.
  intros Hex [(V1 & V2 & V3) [M1 M2]].
  destruct (handleMessage_effect st ws m)
    as [(Ec & Ew & Es)|[(c & Hlen & Ec & Ew & Es)|(c & h & Hh & Ec & Ew & Es)]].
  - split.
    + split_and!.
      * intros c w. rewrite Ew. apply V1.
      * intros c s. rewrite Es. apply V2.
      * intros w c. unfold sessionCode_of. rewrite Ec. apply V3.
    + split.
      * intros c w. rewrite Ew. intros H. eapply bound_conns; eauto.
      * intros c s. rewrite Es. intros H. destruct (M2 c s H).
        split; eapply bound_conns; eauto.
  - split.
    + split_and!.
      * intros c' w. rewrite Ew. destruct (decide (c = c')) as [<-|]; [done|].
        rewrite lookup_insert_ne by done. apply V1.
      * intros c' s. rewrite Es. apply V2.
      * intros w c'. unfold sessionCode_of. rewrite Ec.
        destruct (decide (w = ws)) as [->|]; [|rewrite lookup_alter_ne by done; apply V3].
        rewrite lookup_alter_eq. destruct (conns st !! ws); simpl; [|done].
        by intros [= <-].
    + split.
      * intros c' w. rewrite Ew. destruct (decide (c = c')) as [<-|].
        -- rewrite lookup_insert_eq. intros [= <-].
           eapply bound_alter_bind_self; eauto.
        -- rewrite lookup_insert_ne by done. intros H.
           eapply bound_alter_bind; eauto.
      * intros c' s. rewrite Es. intros H. destruct (M2 c' s H).
        split; eapply bound_alter_bind; eauto.
  - assert (String.length c = 9) as Hlen by by eapply V1.
    split.
    + split_and!.
      * intros c' w. rewrite Ew. intros H. eapply V1.
        eapply lookup_weaken; [exact H|apply delete_subseteq].
      * intros c' s. rewrite Es. destruct (decide (c = c')) as [<-|]; [done|].
        rewrite lookup_insert_ne by done. apply V2.
      * intros w c'. unfold sessionCode_of. rewrite Ec.
        destruct (decide (w = ws)) as [->|]; [|rewrite lookup_alter_ne by done; apply V3].
        rewrite lookup_alter_eq. destruct (conns st !! ws); simpl; [|done].
        by intros [= <-].
    + split.
      * intros c' w. rewrite Ew. intros H.
        eapply lookup_weaken in H; [|apply delete_subseteq].
        eapply bound_alter_bind; eauto.
      * intros c' s. rewrite Es. destruct (decide (c = c')) as [<-|].
        -- rewrite lookup_insert_eq. intros [= <-]. simpl. split.
           ++ eapply bound_alter_bind; eauto.
           ++ eapply bound_alter_bind_self; eauto.
        -- rewrite lookup_insert_ne by done. intros H. destruct (M2 c' s H).
           split; eapply bound_alter_bind; eauto.
Qed.

Lemma step_invariants st ev :
  valid_codes st ∧ members_bound st →
  valid_codes (step st ev) ∧ members_bound (step st ev).
Proof.
  intros [V M].
  assert (∀ st', no_new_entries st st' → same_binding st st' →
            valid_codes st' ∧ members_bound st') as Hshrink.
  { intros st' Hn Hb. split; [by eapply valid_codes_shrink|].
    eapply members_bound_shrink; eauto. intros w. by apply bound_same_binding. }
  destruct ev as [|w|w f|w|w|]; simpl.
  - apply Hshrink; [by split|apply on_connection_binding].
  - apply Hshrink; [by split|].
    by apply (same_binding_alter (set_isAlive true) w st).
  - case_bool_decide as Hex; [|done]. destruct f as [| |m]; try done. simpl.
    by apply handleMessage_invariants.
  - apply Hshrink; [by split|].
    apply (same_binding_alter closing w st);
      [apply closing_role | apply closing_sessionCode | done].
  - apply Hshrink; [apply on_close_no_new|apply on_close_binding].
  - apply Hshrink; [apply pingInterval_no_new|apply sweep_binding].
Qed.

Lemma reachable_invariants st :
  reachable st → valid_codes st ∧ members_bound st.
Proof.
  intros [evs ->]. unfold run.
  assert (valid_codes initial ∧ members_bound initial) as H0.
  { split; [split_and!|split]; intros ? ?; unfold sessionCode_of; simpl;
      by rewrite lookup_empty. }
  revert H0. generalize initial.
  induction evs as [|ev evs IH]; intros st H; simpl; [done|].
  apply IH. by apply step_invariants.
Qed.

(** X10: in every reachable state, every code that is a key of
    [waitingHosts] or of [sessions], and every [sessionCode] of a
    connection, has exactly nine characters, and every connection held by a
    registry has a [sessionCode] and a role: only [registerHost] admits new
    codes, and the registries are filled by successful registrations and
    pairings alone.  In particular no code is empty, so the test
    [!ws.sessionCode] of teardown only ever fires for [null]. *)
Theorem reachable_registry_invariants st :
  reachable st → valid_codes st ∧ members_bound st.
Proof. apply reachable_invariants. Qed.

(** The invariants hold after the pairing of [ABC123XYZ]. *)
Lemma reachable_registry_invariants_witness :
  valid_codes (run initial pairing) ∧ members_bound (run initial pairing).
Proof.
  apply reachable_registry_invariants. by exists pairing.
Defined.

(** ** More on the liveness sweep *)

Lemma reachable_step st ev : reachable st → reachable (step st ev).
Proof.
  intros [evs ->]. exists (evs ++ [ev]). unfold run. by rewrite foldl_app.
Qed.

Lemma swept_not_alive x : isAlive (swept x) = false.
Proof.
  unfold swept. destruct (isAlive x) eqn:E; [done|].
  unfold closing. by case_bool_decide.
Qed.

Lemma pingInterval_clears_flags st w :
  clients_wf st → w ∈ clients st → alive (pingInterval st) w = false.
Proof.
  intros [Hnd Hex] Hin. unfold alive, pingInterval.
  rewrite sweep_conns by done. rewrite decide_True by done.
  destruct (conns st !! w); [apply swept_not_alive|done].
Qed.

(** X11: what the sweep leaves alone.  One run of [pingInterval] over a
    reachable state keeps [wss.clients], changes no role and no
    [sessionCode], adds no entry to either registry, does not touch a
    connection outside [wss.clients], and leaves the [isAlive] flag of every
    connection in [wss.clients] false. *)
Theorem sweep_frame st :
  reachable st →
  clients (pingInterval st) = clients st ∧
  same_binding st (pingInterval st) ∧
  no_new_entries st (pingInterval st) ∧
  (∀ w, w ∈ clients st → alive (pingInterval st) w = false) ∧
  (∀ w, w ∉ clients st → conns (pingInterval st) !! w = conns st !! w).
Proof.
  intros Hr. pose proof (reachable_clients_wf st Hr) as Hwf.
  split_and!.
  - apply sweep_clients.
  - apply sweep_binding.
  - apply pingInterval_no_new.
  - intros w Hin. by apply pingInterval_clears_flags.
  - intros w Hin. unfold pingInterval. destruct Hwf as [Hnd _].
    rewrite sweep_conns by done. by rewrite decide_False.
Qed.

(** The sweep clears the flag of the client of a pairing. *)
Lemma sweep_frame_witness :
  alive (pingInterval (run initial pairing)) 1 = false.
Proof.
  assert (reachable (run initial pairing)) as Hr by (by exists pairing).
  refine (proj1 (proj2 (proj2 (proj2 (sweep_frame _ Hr)))) 1 _).
  assert (clients (run initial pairing) = [0; 1]) as -> by (vm_compute; reflexivity).
  right. left.
Defined.

(** X12: two sweeps without a [pong] in between terminate a connection.
    For a connection in [wss.clients] of a reachable state, whatever its
    flag, the second of two consecutive runs of [pingInterval] terminates
    it, and its socket is not open afterwards. *)
Theorem two_silent_sweeps_terminate st ws :
  reachable st → ws ∈ clients st →
  Terminate ws ∈ sweep_log (pingInterval st) ∧
  is_open (pingInterval (pingInterval st)) ws = false.
Proof.
  intros Hr Hin.
  pose proof (reachable_clients_wf st Hr) as Hwf.
  assert (clients_wf (pingInterval st)) as Hwf1.
  { apply reachable_clients_wf. apply (reachable_step st Tick Hr). }
  assert (ws ∈ clients (pingInterval st)) as Hin1.
  { unfold pingInterval. by rewrite sweep_clients. }
  assert (alive (pingInterval st) ws = false) as Ha
    by by apply pingInterval_clears_flags.
  destruct (sweep_step_behaviour (pingInterval st) ws Hwf1 Hin1) as [Hdead _].
  destruct (Hdead Ha) as (HT & _ & Ho & _). done.
Qed.

(** A connection that never answers is terminated by the second sweep. *)
Lemma two_silent_sweeps_terminate_witness :
  Terminate 0 ∈ sweep_log (pingInterval (run initial one_connection)).
Proof.
  assert (reachable (run initial one_connection)) as Hr by (by exists one_connection).
  refine (proj1 (two_silent_sweeps_terminate _ 0 Hr _)).
  assert (clients (run initial one_connection) = [0]) as -> by (vm_compute; reflexivity).
  left.
Defined.

(** X13: a [pong] saves a connection from the next sweep.  After the
    [pong] listener has run for a connection in [wss.clients] of a reachable
    state, the next run of [pingInterval] probes the connection, does not
    terminate it, and leaves its socket as open as it was. *)
Theorem pong_survives_next_sweep st ws :
  reachable st → ws ∈ clients st →
  Ping ws ∈ sweep_log (on_pong st ws) ∧
  (Terminate ws ∉ sweep_log (on_pong st ws)) ∧
  is_open (pingInterval (on_pong st ws)) ws = is_open st ws.
Proof.
  intros Hr Hin.
  pose proof (reachable_clients_wf st Hr) as [_ Hex].
  assert (clients_wf (on_pong st ws)) as Hwf1.
  { apply reachable_clients_wf. apply (reachable_step st (Pong ws) Hr). }
  destruct (Hex ws Hin) as [x Hx].
  assert (alive (on_pong st ws) ws = true) as Ha.
  { unfold alive, on_pong. simpl. by rewrite lookup_alter_eq, Hx. }
  assert (is_open (on_pong st ws) ws = is_open st ws) as Ho.
  { unfold is_open, on_pong. simpl. by rewrite lookup_alter_eq, Hx. }
  destruct (sweep_step_behaviour (on_pong st ws) ws Hwf1 Hin) as [_ Halive].
  destruct (Halive Ha) as (HP & HT & _ & Ho'). rewrite Ho' , Ho. done.
Qed.

(** Swept once and then answering, a connection is probed again. *)
Lemma pong_survives_next_sweep_witness :
  Ping 0 ∈ sweep_log (on_pong (run initial swept_once) 0).
Proof.
  assert (reachable (run initial swept_once)) as Hr by (by exists swept_once).
  refine (proj1 (pong_survives_next_sweep _ 0 Hr _)).
  assert (clients (run initial swept_once) = [0]) as -> by (vm_compute; reflexivity).
  left.
Defined.

(** X14: the [close] event that follows a forced termination finds nothing
    left to tear down.  In a reachable state whose registries are apart, a
    sweep that finds a connection of [wss.clients] dead runs its teardown;
    the [close] listener that runs afterwards for that connection changes
    neither registry and sends nothing. *)
Theorem close_after_forced_termination st ws :
  reachable st → mutex st → ws ∈ clients st → alive st ws = false →
  waitingHosts (on_close (pingInterval st) ws) = waitingHosts (pingInterval st) ∧
  sessions (on_close (pingInterval st) ws) = sessions (pingInterval st) ∧
  sent (on_close (pingInterval st) ws) = sent (pingInterval st).
Proof.
  intros Hr M Hin Ha.
  pose proof (reachable_clients_wf st Hr) as [Hnd _].
  destruct (reachable_invariants st Hr) as [(_ & _ & V3) _].
  set (st1 := pingInterval st).
  set (st1' := closed st1 ws).
  assert (on_close st1 ws = st1' ∨ on_close st1 ws = handleDisconnect st1' ws)
    as [-> | ->]; [unfold on_close; fold st1'; destruct (negb _); auto|done|].
  assert (sessionCode_of st1' ws = sessionCode_of st ws) as Hsc.
  { destruct (sweep_binding (clients st) st ws) as [_ <-].
    unfold sessionCode_of, st1'. simpl. fold (pingInterval st). fold st1.
    rewrite lookup_alter_eq. by destruct (conns st1 !! ws). }
  destruct (sessionCode_of st ws) as [c|] eqn:Hc.
  2:{ unfold handleDisconnect. by rewrite Hsc. }
  assert (c ≠ "") as Hne by (apply length9_nonempty; by eapply V3).
  destruct (sweep_teardown (clients st) st ws c Hnd Hin Ha Hc Hne) as [Hw Hs].
  fold (pingInterval st) in Hw, Hs. fold st1 in Hw, Hs.
  assert (sessions st1 !! c = None) as Hs'.
  { destruct (decide (waitingHosts st !! c = Some ws)) as [E|E]; [|by apply Hs].
    destruct (M c) as [E'|E']; [congruence|].
    eapply lookup_weaken_None; [exact E'|]. apply pingInterval_no_new. }
  rewrite (handleDisconnect_noop st1' ws c Hsc); done.
Qed.

(** After a sweep has found the client of a pairing dead, its [close]
    event changes nothing. *)
Lemma close_after_forced_termination_witness :
  let st := run initial pairing_swept_once in
  sent (on_close (pingInterval st) 1) = sent (pingInterval st).
Proof.
  intros st.
  assert (reachable st) as Hr by (by exists pairing_swept_once).
  assert (mutex st) as M.
  { intros c. left.
    assert (waitingHosts st = ∅) as -> by (vm_compute; reflexivity).
    apply lookup_empty. }
  assert (1 ∈ clients st) as Hin.
  { assert (clients st = [0; 1]) as -> by (vm_compute; reflexivity). right. left. }
  assert (alive st 1 = false) as Ha by (vm_compute; reflexivity).
  exact (proj2 (proj2 (close_after_forced_termination st 1 Hr M Hin Ha))).
Defined.

(** ** The [close] listener of the inline version *)

(** X15: the inline [close] listener is idempotent on every state: running
    it twice for a connection gives the state that running it once gives.
    It deletes the waiting entry and goes on to the session, so nothing is
    left for a second run. *)
Theorem inline_close_is_idempotent st ws :
  Inline.close_listener (Inline.close_listener st ws) ws
    = Inline.close_listener st ws.
Proof.
  unfold Inline.close_listener at 2 3.
  destruct (sessionCode_of st ws) as [c|] eqn:Hc.
  2:{ unfold Inline.close_listener. by rewrite Hc. }
  case_bool_decide as Hempty.
  { unfold Inline.close_listener. rewrite Hc. by rewrite bool_decide_eq_true_2. }
  set (st1 := if bool_decide (waitingHosts st !! c = Some ws)
              then set_waitingHosts (delete c) st else st).
  assert (conns st1 = conns st) as Ecs by (unfold st1; by case_bool_decide).
  assert (sessions st1 = sessions st) as Ess by (unfold st1; by case_bool_decide).
  assert (waitingHosts st1 !! c ≠ Some ws) as Hw1.
  { unfold st1. case_bool_decide; simpl; [by rewrite lookup_delete_eq|done]. }
  assert (∀ st2, conns st2 = conns st → waitingHosts st2 = waitingHosts st1 →
            sessions st2 !! c = None → Inline.close_listener st2 ws = st2) as Hnoop.
  { intros st2 E1 E2 E3. unfold Inline.close_listener, sessionCode_of.
    rewrite E1. unfold sessionCode_of in Hc. rewrite Hc.
    rewrite bool_decide_eq_false_2 by done.
    rewrite bool_decide_eq_false_2 by by rewrite E2.
    by rewrite E3. }
  destruct (sessions st1 !! c) as [s|] eqn:Hs.
  - apply Hnoop; simpl.
    + by destruct (is_open st1 _).
    + by destruct (is_open st1 _).
    + apply lookup_delete_eq.
  - by apply Hnoop.
Qed.

(** X16: the inline [close] listener and [handleDisconnect] agree unless
    the connection is the waiting host of its code while a session is
    stored under the same code; in particular they agree on every state
    whose registries are apart. *)
Theorem inline_close_agrees_when_apart st ws :
  (∀ c, sessionCode_of st ws = Some c → waitingHosts st !! c = Some ws →
        sessions st !! c = None) →
  Inline.close_listener st ws = handleDisconnect st ws.
Proof.
  intros H. unfold Inline.close_listener, handleDisconnect.
  destruct (sessionCode_of st ws) as [c|]; [|done].
  case_bool_decide; [done|].
  case_bool_decide as Hw; [|done].
  simpl. by rewrite (H c eq_refl Hw).
Qed.

(** The two teardowns agree on the client of a pairing. *)
Lemma inline_close_agrees_when_apart_witness :
  let st := run initial pairing in
  Inline.close_listener st 1 = handleDisconnect st 1.
Proof.
  intros st. apply inline_close_agrees_when_apart.
  intros c _ Hw. exfalso. revert Hw.
  assert (waitingHosts st = ∅) as -> by (vm_compute; reflexivity).
  by rewrite lookup_empty.
Defined.

(** ** Printable names *)

(** What a message does to the [ws] objects: nothing, or it binds the
    sender as a host under a name and an id that the log of [registerHost]
    has printed, or it binds the sender as a client. *)
Lemma handleMessage_binds st ws m :
  conns (handleMessage st ws m) = conns st ∨
  (∃ c, prints (device_name m) = true ∧ prints (device_id m) = true ∧
        conns (handleMessage st ws m)
          = alter (bind_conn c host_role m) ws (conns st)) ∨
  (∃ c, conns (handleMessage st ws m)
          = alter (bind_conn c client_role m) ws (conns st)).
Proof.
  destruct (handleMessage_cases st ws m)
    as [[_ ->]|[[_ ->]|[[_ ->]|[[_ ->]|[_ ->]]]]]; try by left.
  - destruct (registerHost_cases st ws m)
      as [->|[[e ->]|(c & _ & _ & _ & Hn & Hi & ->)]]; [by left|by left|].
    right; left. by exists c.
  - destruct (connectToHost_cases st ws m) as [->|(c & h & Hc & Hw & Ho)];
      [by left|].
    destruct (connectToHost_success st ws m c h Hc Hw Ho) as (_ & Ecs & _).
    right; right. by exists c.
  - left. apply relayData_conns.
Qed.

Section Conn_invariant.

Variable P : Conn → Prop.
Variable ok : Message → Prop.
Hypothesis P_new : P new_conn.
Hypothesis P_alive : ∀ b x, P x → P (set_isAlive b x).
Hypothesis P_ready : ∀ r x, P x → P (set_readyState r x).
Hypothesis P_host : ∀ c m x,
  prints (device_name m) = true → prints (device_id m) = true →
  P (bind_conn c host_role m x).
Hypothesis P_client : ∀ c m x, ok m → P (bind_conn c client_role m x).

Lemma alter_all_conns f w (cs : gmap nat Conn) :
  (∀ x, P x → P (f x)) →
  (∀ i x, cs !! i = Some x → P x) →
  ∀ i x, alter f w cs !! i = Some x → P x.
Proof.
  intros Hf Hcs i x. destruct (decide (i = w)) as [->|].
  - rewrite lookup_alter_eq. destruct (cs !! w) as [y|] eqn:Hy; [|done].
    intros [= <-]. apply Hf. by eapply Hcs.
  - rewrite lookup_alter_ne by done. apply Hcs.
Qed.

Lemma closing_all_conns x : P x → P (closing x).
Proof. unfold closing. case_bool_decide; auto. Qed.

Lemma swept_all_conns x : P x → P (swept x).
Proof. unfold swept. destruct (isAlive x); auto using closing_all_conns. Qed.

Lemma sweep_all_conns l st :
  (∀ i x, conns st !! i = Some x → P x) →
  ∀ i x, conns (foldl sweep_one st l) !! i = Some x → P x.
Proof.
  revert st. induction l as [|w l IH]; intros st H; simpl; [done|].
  apply IH. rewrite sweep_one_conns.
  apply alter_all_conns; [apply swept_all_conns|done].
Qed.

Lemma step_all_conns st ev :
  (∀ w m, ev = Incoming w (Decoded m) → ok m) →
  (∀ i x, conns st !! i = Some x → P x) →
  ∀ i x, conns (step st ev) !! i = Some x → P x.
Proof.
  intros Hev H. destruct ev as [|w|w f|w|w|]; simpl.
  - intros i x. destruct (decide (i = fresh (dom (conns st)))) as [->|].
    + rewrite lookup_insert_eq. by intros [= <-].
    + rewrite lookup_insert_ne by done. apply H.
  - apply alter_all_conns; auto.
  - case_bool_decide; [|done]. destruct f as [| |m]; try done. simpl.
    destruct (handleMessage_binds st w m)
      as [->|[(c & Hn & Hi & ->)|(c & ->)]]; [done| |].
    + apply alter_all_conns; auto.
    + apply alter_all_conns; [|done]. intros x _. apply P_client.
      by apply (Hev w m).
  - apply alter_all_conns; [apply closing_all_conns|done].
  - rewrite on_close_conns. apply alter_all_conns; auto.
  - by apply sweep_all_conns.
Qed.

End Conn_invariant.

Lemma names_print_conns st :
  names_print st ↔ ∀ i x, conns st !! i = Some x → prints (deviceName x) = true.
Proof.
  unfold names_print, deviceName_of. split.
  - intros H i x Hx. specialize (H i). by rewrite Hx in H.
  - intros H w. destruct (conns st !! w) as [x|] eqn:Hx; [|done]. by eapply H.
Qed.

(** Printable events keep the stored names printable. *)
Lemma step_names_print st ev :
  printable_event ev = true → names_print st → names_print (step st ev).
Proof.
  rewrite !names_print_conns. intros Hev.
  apply (step_all_conns (λ x, prints (deviceName x) = true)
           (λ m, prints (device_name m) = true)); try done.
  intros w m ->. simpl in Hev. by apply andb_true_iff in Hev as [? _].
Qed.

Lemma host_names_print_conns st :
  host_names_print st ↔
  ∀ i x, conns st !! i = Some x →
    role x = Some host_role →
    prints (deviceName x) = true ∧ prints (deviceId x) = true.
Proof.
  unfold host_names_print, role_of, deviceName_of, deviceId_of. split.
  - intros H i x Hx. specialize (H i). by rewrite Hx in H.
  - intros H w. destruct (conns st !! w) as [x|] eqn:Hx; [|done]. by eapply H.
Qed.

(** In every reachable state a connection with the role host carries a
    device name and id that can be printed: [registerHost] binds a host
    only after its first log has printed both. *)
Lemma reachable_host_names_print st : reachable st → host_names_print st.
Proof.
  intros [evs ->]. unfold run.
  assert (host_names_print initial) as H0.
  { apply host_names_print_conns. intros i x. simpl. by rewrite lookup_empty. }
  revert H0. generalize initial.
  induction evs as [|ev evs IH]; intros st H; simpl; [done|].
  apply IH. revert H. rewrite !host_names_print_conns.
  apply (step_all_conns
           (λ x, role x = Some host_role →
                 prints (deviceName x) = true ∧ prints (deviceId x) = true)
           (λ _, True)); done.
Qed.

(** With printable names the [close] listener runs the teardown. *)
Lemma on_close_printable st w :
  prints (deviceName_of st w) = true →
  on_close st w = handleDisconnect (closed st w) w.
Proof.
  intros H. unfold on_close.
  assert (deviceName_of (closed st w) w = deviceName_of st w) as ->.
  { unfold deviceName_of, closed. simpl. rewrite lookup_alter_eq.
    by destruct (conns st !! w). }
  by rewrite H.
Qed.

(** ** The modular version *)

(** X17: [handleConnectToHost] of the modular version turns a missing or
    empty code down with [error{Código requerido}], changing nothing; for
    any other code it does what [connectToHost] does, up to the text of the
    [connection_failed] reply. *)
Theorem modular_connect_contract st ws m :
  (code m = None ∨ code m = Some "" →
     Modular.handleConnectToHost st ws m = send ws (error "Código requerido") st) ∧
  (∀ c, code m = Some c → c ≠ "" →
     Modular.handleConnectToHost st ws m = connectToHost st ws m ∨
     (connectToHost st ws m = send ws (connection_failed host_not_found) st ∧
      Modular.handleConnectToHost st ws m
        = send ws (connection_failed Modular.host_not_found) st)).
Proof.
  split.
  - unfold Modular.handleConnectToHost. by intros [->| ->].
  - intros c Hc Hne.
    unfold Modular.handleConnectToHost, connectToHost, waiting_host.
    rewrite Hc. simpl. rewrite bool_decide_eq_false_2 by done.
    destruct (waitingHosts st !! c) as [h|]; [|by right].
    destruct (negb (is_open st h)); [by right|by left].
Qed.

(** A [connect_to_host] without a code, and one for a waiting host. *)
Lemma modular_connect_contract_witness :
  let st := run initial host_and_guest in
  let m0 := {| type := Some "connect_to_host"; code := None; device_id := bob;
               device_name := bob; data := None |} in
  let m1 := message_of "connect_to_host" ABC123XYZ bob in
  Modular.handleConnectToHost st 1 m0 = send 1 (error "Código requerido") st ∧
  Modular.handleConnectToHost st 1 m1 = connectToHost st 1 m1.
Proof.
  intros st m0 m1. split.
  - apply (proj1 (modular_connect_contract st 1 m0)). by left.
  - destruct (proj2 (modular_connect_contract st 1 m1) ABC123XYZ eq_refl)
      as [E|[E _]]; [discriminate|exact E|].
    exfalso. apply (f_equal sent) in E. vm_compute in E. discriminate E.
Defined.

Lemma alike_refl a : alike a a.
Proof. by left. Qed.

Lemma Forall2_alike_refl l : Forall2 alike l l.
Proof. induction l; constructor; auto using alike_refl. Qed.

Lemma similar_log cl cs wh ss l l' d d' :
  Forall2 alike l l' → Forall2 alike d d' →
  similar (mkState cl cs wh ss (l ++ d)) (mkState cl cs wh ss (l' ++ d')).
Proof. intros H1 H2. split_and!; try done. simpl. by apply Forall2_app. Qed.

Lemma similar_same cl cs wh ss l l' :
  Forall2 alike l l' →
  similar (mkState cl cs wh ss l) (mkState cl cs wh ss l').
Proof. intros H. by split_and!. Qed.

Lemma alike_rejections w m1 m2 :
  rejection m1 = true → rejection m2 = true →
  Forall2 alike [Send w m1] [Send w m2].
Proof. intros H1 H2. constructor; [|constructor]. right. by exists w, m1, m2. Qed.

(** Closes a goal [similar _ _] between two states built on the same
    components, whose logs extend alike logs by equal frames or by two
    rejections. *)
Ltac sim_leaf HF :=
  cbv beta iota zeta delta
    [send ping terminate set_conns set_waitingHosts set_sessions set_clients
     clients conns waitingHosts sessions sent];
  first
    [ by apply similar_same
    | apply similar_log; [exact HF | first [ apply Forall2_alike_refl
                                            | by apply alike_rejections ] ]
    | rewrite <- !app_assoc; apply similar_log;
        [exact HF | apply Forall2_alike_refl] ].

(** Splits on every option and every test the two sides branch on, and
    closes the leaves. *)
Ltac sim_cases HF :=
  repeat match goal with
  | |- context [match ?e with Some _ => _ | None => _ end] => destruct e; simpl
  | |- context [mbind _ ?o] => destruct o; simpl
  | |- context [if ?b then _ else _] => destruct b; simpl
  end;
  sim_leaf HF.

(** Opens a hypothesis [similar st st'] into two records on the same
    components. *)
Ltac sim_open st st' H HF :=
  destruct st as [cl cs wh ss l], st' as [cl' cs' wh' ss' l'];
  destruct H as (E1 & E2 & E3 & E4 & HF); simpl in E1, E2, E3, E4, HF;
  subst cl' cs' wh' ss'.

Lemma similar_registerHost st st' ws m :
  prints (device_name m) = true → prints (device_id m) = true →
  similar st st' →
  similar (registerHost st ws m) (ServerJs.handleRegisterHost st' ws m).
Proof.
  intros Hn Hi H. sim_open st st' H HF.
  unfold registerHost, ServerJs.handleRegisterHost. rewrite Hn, Hi. simpl.
  destruct (code m) as [c|]; [|sim_leaf HF].
  destruct (invalid_code c); [sim_leaf HF|].
  case_bool_decide; sim_leaf HF.
Qed.

Lemma similar_connectToHost st st' ws m :
  waitingHosts st !! "" = None →
  similar st st' →
  similar (connectToHost st ws m) (Modular.handleConnectToHost st' ws m).
Proof.
  intros Hempty H. sim_open st st' H HF. simpl in Hempty.
  unfold connectToHost, Modular.handleConnectToHost, waiting_host, is_open,
    deviceId_of, deviceName_of. simpl.
  destruct (code m) as [c|]; [|sim_leaf HF]. simpl.
  case_bool_decide as Hc.
  { subst c. rewrite Hempty. sim_leaf HF. }
  destruct (wh !! c) as [h|]; [|sim_leaf HF].
  destruct (cs !! h) as [x|]; simpl; [|sim_leaf HF].
  case_bool_decide; simpl; [|sim_leaf HF].
  match goal with |- context [negb ?b] => destruct b end; simpl; sim_leaf HF.
Qed.

Lemma similar_relayData st st' ws m :
  similar st st' →
  similar (relayData st ws m) (ServerJs.handleRelay st' ws m).
Proof.
  intros H. sim_open st st' H HF.
  unfold relayData, ServerJs.handleRelay, sessionCode_of, other_side, role_of,
    is_open. simpl.
  sim_cases HF.
Qed.

Lemma similar_handleDisconnect st st' ws :
  similar st st' → similar (handleDisconnect st ws) (handleDisconnect st' ws).
Proof.
  intros H. sim_open st st' H HF.
  unfold handleDisconnect, sessionCode_of, other_side, role_of, is_open. simpl.
  sim_cases HF.
Qed.

Lemma similar_sweep_one st st' ws :
  similar st st' → similar (sweep_one st ws) (sweep_one st' ws).
Proof.
  intros H.
  assert (alive st' ws = alive st ws) as Ha.
  { unfold alive. by destruct H as (_ & -> & _). }
  unfold sweep_one. rewrite Ha. destruct (alive st ws); simpl.
  - sim_open st st' H HF. sim_leaf HF.
  - apply (similar_handleDisconnect _ _ ws) in H.
    revert H. generalize (handleDisconnect st ws), (handleDisconnect st' ws).
    intros s s' H. sim_open s s' H HF. unfold terminate. sim_leaf HF.
Qed.

Lemma similar_sweep l st st' :
  similar st st' → similar (foldl sweep_one st l) (foldl sweep_one st' l).
Proof.
  revert st st'. induction l as [|w l IH]; intros st st' H; simpl; [done|].
  apply IH. by apply similar_sweep_one.
Qed.

Lemma similar_step st st' ev :
  printable_event ev = true → names_print st →
  valid_codes st → similar st st' →
  similar (step st ev) (Modular.step st' ev).
Proof.
  intros Hev Hnames (V1 & _ & _) H.
  assert (waitingHosts st !! "" = None) as Hempty.
  { destruct (waitingHosts st !! "") eqn:E; [|done]. by apply V1 in E. }
  destruct ev as [|w|w f|w|w|]; simpl.
  - sim_open st st' H HF. unfold on_connection. sim_leaf HF.
  - sim_open st st' H HF. unfold on_pong. sim_leaf HF.
  - assert (conns st' = conns st) as -> by by destruct H as (_ & -> & _).
    case_bool_decide; [|done]. destruct f as [| |m]; try done. simpl.
    destruct (handleMessage_cases st w m)
      as [[Ht ->]|[[Ht ->]|[[Ht ->]|[[Ht ->]|[Ht ->]]]]].
    + unfold Modular.handleMessage. rewrite Ht. simpl in Hev.
      apply andb_true_iff in Hev as [Hn Hi]. by apply similar_registerHost.
    + unfold Modular.handleMessage. rewrite Ht. by apply similar_connectToHost.
    + unfold Modular.handleMessage. rewrite Ht. by apply similar_relayData.
    + unfold Modular.handleMessage. rewrite Ht.
      sim_open st st' H HF. sim_leaf HF.
    + assert (Modular.handleMessage st' w m = st') as E; [|by rewrite E].
      unfold known_type in Ht. unfold Modular.handleMessage.
      destruct (type m) as [t|]; [|done].
      repeat (destruct t as [|[[] [] [] [] [] [] [] []] t]; try done);
        exfalso; apply Ht; auto.
  - sim_open st st' H HF. unfold on_closing. sim_leaf HF.
  - rewrite on_close_printable by apply Hnames.
    unfold Modular.on_close, closed. apply similar_handleDisconnect.
    sim_open st st' H HF. sim_leaf HF.
  - unfold pingInterval.
    assert (clients st' = clients st) as -> by by destruct H as (-> & _).
    by apply similar_sweep.
Qed.

Lemma similar_run evs st st' :
  forallb printable_event evs = true → names_print st →
  valid_codes st ∧ members_bound st → similar st st' →
  similar (foldl step st evs) (foldl Modular.step st' evs).
Proof.
  revert st st'.
  induction evs as [|ev evs IH]; intros st st' Hev Hn HI HS; simpl; [done|].
  simpl in Hev. apply andb_true_iff in Hev as [Hev Hevs].
  apply IH; [done| | |].
  - by apply step_names_print.
  - by apply step_invariants.
  - apply similar_step; [done|done|apply HI|done].
Qed.

(** X18: on every sequence of events whose messages carry device ids and
    names that can be printed, the modular version of [server.js] and the
    main version go through the same states: after the same events,
    [wss.clients], every [ws] object and both registries are equal, and the
    transport logs are equal frame by frame, except that where one version
    sends a rejection ([error] or [connection_failed]) the other sends a
    rejection to the same connection, possibly worded differently. *)
Theorem modular_version_simulates evs :
  forallb printable_event evs = true →
  similar (run initial evs) (Modular.run initial evs).
Proof.
  intros Hev. apply similar_run; [done| | |].
  - intros w. unfold deviceName_of. simpl. by rewrite lookup_empty.
  - apply reachable_invariants. by exists [].
  - by apply similar_same.
Qed.

(** The two versions agree on the run in which a code is reused while its
    first pair is still connected. *)
Lemma modular_version_simulates_witness :
  similar (run initial code_reused_by_others)
          (Modular.run initial code_reused_by_others).
Proof.
  apply (modular_version_simulates code_reused_by_others). reflexivity.
Defined.

(** ** Keeping the registries apart *)

(** X19: on a state in which no code is a key of both registries,
    [handleDisconnect] is idempotent: a second teardown of the same
    connection changes nothing. *)
Theorem teardown_idempotent_when_apart st ws :
  mutex st →
  handleDisconnect (handleDisconnect st ws) ws = handleDisconnect st ws.
Proof. apply handleDisconnect_idempotent. Qed.

(** Tearing the host of a pairing down twice is tearing it down once. *)
Lemma teardown_idempotent_when_apart_witness :
  let st := run initial pairing in
  handleDisconnect (handleDisconnect st 0) 0 = handleDisconnect st 0.
Proof.
  intros st. apply teardown_idempotent_when_apart.
  intros c. left.
  assert (waitingHosts st = ∅) as -> by (vm_compute; reflexivity).
  apply lookup_empty.
Defined.

(** X20: every event other than a [register_host] message keeps the
    registries apart: a [connection], a [pong], any other message, a socket
    that starts closing, a [close] and a sweep take a state in which no code
    is a key of both registries to such a state. *)
Theorem events_keep_registries_apart st ev :
  (∀ ws m, ev = Incoming ws (Decoded m) → type m ≠ Some "register_host") →
  mutex st → mutex (step st ev).
Proof. apply step_mutex. Qed.

(** The close of the client of a pairing keeps the registries apart. *)
Lemma events_keep_registries_apart_witness :
  mutex (step (run initial pairing) (Close 1)).
Proof.
  apply events_keep_registries_apart.
  - intros ws m H. discriminate H.
  - intros c. left.
    assert (waitingHosts (run initial pairing) = ∅) as -> by (vm_compute; reflexivity).
    apply lookup_empty.
Defined.

(** X21: [registerHost] keeps the registries apart whenever the code of
    the message has no session. *)
Theorem registration_keeps_registries_apart st ws m :
  (∀ c, code m = Some c → sessions st !! c = None) →
  mutex st → mutex (registerHost st ws m).
Proof. apply registerHost_mutex. Qed.

(** The first registration keeps the registries apart. *)
Lemma registration_keeps_registries_apart_witness :
  mutex (registerHost (run initial one_connection) 0
           (message_of "register_host" ABC123XYZ alice)).
Proof.
  apply registration_keeps_registries_apart.
  - intros c _.
    assert (sessions (run initial one_connection) = ∅) as -> by (vm_compute; reflexivity).
    apply lookup_empty.
  - intros c. left.
    assert (waitingHosts (run initial one_connection) = ∅) as ->
      by (vm_compute; reflexivity).
    apply lookup_empty.
Defined.

(** ** The inline version against the main one *)

(** X22: the [connect_to_host] branch of the inline [message] listener
    gives the state [connectToHost] gives, except that a failed pairing is
    answered with a shorter reason. *)
Theorem inline_connect_agrees st ws m :
  ServerJs.connect_to_host_branch st ws m = connectToHost st ws m ∨
  (connectToHost st ws m = send ws (connection_failed host_not_found) st ∧
   ServerJs.connect_to_host_branch st ws m =
     send ws (connection_failed "No se encontró PC con ese código") st).
Proof. apply connect_to_host_branch_connectToHost. Qed.

(** X23: the sweep of the inline version sets the flags and ready states
    that [pingInterval] sets, and leaves both registries alone: it
    terminates a dead connection without running its teardown. *)
Theorem inline_sweep_agrees st :
  conns (ServerJs.sweep st) = conns (pingInterval st) ∧
  waitingHosts (ServerJs.sweep st) = waitingHosts st ∧
  sessions (ServerJs.sweep st) = sessions st.
Proof. apply sweep_inline_pingInterval. Qed.

(** ** When a log cannot print a name *)



(** X28: in every reachable state a connection whose role is host carries
    a device name and a device id that can be printed: [registerHost], the
    only place that sets the role host, binds the sender after its first
    log has printed both.  So the [close] listener of such a connection
    always gets past its log. *)
Theorem hosts_carry_printable_names st w :
  reachable st → role_of st w = Some host_role →
  prints (deviceName_of st w) = true ∧ prints (deviceId_of st w) = true.
Proof. intros Hr. by apply reachable_host_names_print. Qed.

(** The host of the pairing of [ABC123XYZ]. *)
Lemma hosts_carry_printable_names_witness :
  prints (deviceName_of (run initial pairing) 0) = true ∧
  prints (deviceId_of (run initial pairing) 0) = true.
Proof.
  apply hosts_carry_printable_names; [by exists pairing|].
  vm_compute. reflexivity.
Defined.




